(** * MediSim3D: procedural heart models, beat animation and hover picking

    A shallow embedding of the three visualisations

      - [src/simulations/heart/logic.js]
      - [src/simulations/cardiac-cross-section/logic.js]
      - [src/simulations/cardiac-cycle/logic.js]

    JavaScript numbers are idealised as real numbers: rounding (and the
    32-bit storage of vertex buffers) is not modelled.  Slider values are
    the numbers their strings denote. *)

From Stdlib Require Import Reals Lra Lia ZArith.
From stdpp Require Import base option list strings gmap.

Local Open Scope R_scope.

(** ** The parts of three.js the scripts call *)

Module Three.

(** [THREE.Vector3] *)
Record Vector3 : Type := mkVector3 { vx : R; vy : R; vz : R }.

(** [v.set(x, y, z)] *)
Definition set (_ : Vector3) (x y z : R) : Vector3 := mkVector3 x y z.

(** [this.lerp(v, alpha)]: [this.x += (v.x - this.x) * alpha], and the
    same for [y] and [z]. *)
Definition lerp (this v : Vector3) (alpha : R) : Vector3 :=
  mkVector3 (vx this + (vx v - vx this) * alpha)
            (vy this + (vy v - vy this) * alpha)
            (vz this + (vz v - vz this) * alpha).

(** A new [Object3D] has scale (1, 1, 1). *)
Definition unit_scale : Vector3 := mkVector3 1 1 1.

(** Every component lies between [lo] and [hi]. *)
Definition within (lo hi : R) (v : Vector3) : Prop :=
  lo <= vx v <= hi ∧ lo <= vy v <= hi ∧ lo <= vz v <= hi.

(** The same factor on the three axes. *)
Definition uniform (v : Vector3) : Prop := vx v = vy v ∧ vy v = vz v.

(** [THREE.BufferAttribute]: a flat array read in groups of [itemSize]. *)
Record BufferAttribute : Type :=
  mkAttr { array : list R; itemSize : nat }.

(** [attr.count] is [array.length / itemSize]. *)
Definition count (a : BufferAttribute) : nat :=
  (length (array a) / itemSize a)%nat.

(** [getX(i)] reads [array[i * itemSize]]; a read past the end of the
    array gives [undefined], here [None]. *)
Definition getX (a : BufferAttribute) (i : nat) : option R :=
  array a !! (i * itemSize a)%nat.
Definition getY (a : BufferAttribute) (i : nat) : option R :=
  array a !! (i * itemSize a + 1)%nat.
Definition getZ (a : BufferAttribute) (i : nat) : option R :=
  array a !! (i * itemSize a + 2)%nat.

(** [setX(i, x)] stores into [array[i * itemSize]]; a typed array drops
    a store past its end, and so does list insertion. *)
Definition setX (a : BufferAttribute) (i : nat) (x : R) : BufferAttribute :=
  mkAttr (<[(i * itemSize a)%nat := x]> (array a)) (itemSize a).
Definition setY (a : BufferAttribute) (i : nat) (y : R) : BufferAttribute :=
  mkAttr (<[(i * itemSize a + 1)%nat := y]> (array a)) (itemSize a).
Definition setZ (a : BufferAttribute) (i : nat) (z : R) : BufferAttribute :=
  mkAttr (<[(i * itemSize a + 2)%nat := z]> (array a)) (itemSize a).

(** [setXYZ(i, x, y, z)] *)
Definition setXYZ (a : BufferAttribute) (i : nat) (x y z : R)
  : BufferAttribute :=
  setZ (setY (setX a i x) i y) i z.

(** The three coordinates of vertex [i], when all three are in range. *)
Definition vertex (a : BufferAttribute) (i : nat) : option (R * R * R) :=
  x ← getX a i; y ← getY a i; z ← getZ a i; Some (x, y, z).

(** [THREE.Vector2] *)
Record Vector2 : Type := mkVector2 { px : R; py : R }.

End Three.

Import Three.

(** ** Shape deformation of the ventricle sphere *)

(** [for (let i = 0; i < pos.count; i++) body]: the bound is read again
    on every round; [None] when the fuel runs out or the body fails. *)
Fixpoint for_count (body : nat → BufferAttribute → option BufferAttribute)
    (fuel i : nat) (pos : BufferAttribute) : option BufferAttribute :=
  match fuel with
  | O => None
  | S fuel' =>
      if decide (i < count pos)%nat
      then pos' ← body i pos; for_count body fuel' (S i) pos'
      else Some pos
  end.

Section TaperStretch.

(** The two constants written in the loop of the heart and of the
    cross-section scripts ([0.2] and [1.2] in both). *)
Variables taper stretch : R.

(** One round of the loop:
<<
    const x = posAttribute.getX( i );
    const y = posAttribute.getY( i );
    const z = posAttribute.getZ( i );
    const y_mod = y * stretch;
    posAttribute.setX( i, x * (1.0 - y * taper) );
    posAttribute.setY( i, y_mod );
>> *)
Definition deformStep (i : nat) (posAttribute : BufferAttribute)
  : option BufferAttribute :=
  x ← getX posAttribute i;
  y ← getY posAttribute i;
  z ← getZ posAttribute i;
  let y_mod := y * stretch in
  let posAttribute := setX posAttribute i (x * (1.0 - y * taper)) in
  Some (setY posAttribute i y_mod).

Definition deformLoop (posAttribute : BufferAttribute)
  : option BufferAttribute :=
  for_count deformStep (S (count posAttribute)) 0 posAttribute.

(** What the loop is meant to do to one vertex. *)
Definition deformVertex (v : R * R * R) : R * R * R :=
  let '(x, y, z) := v in (x * (1 - y * taper), y * stretch, z).

End TaperStretch.

(** A loop body that rewrites vertex [i] by [f] and nothing else. *)
Definition rewrites_vertex
    (body : nat → BufferAttribute → option BufferAttribute)
    (f : R * R * R → R * R * R) : Prop :=
  ∀ (i : nat) (pos : BufferAttribute),
    itemSize pos = 3%nat → (i < count pos)%nat →
    ∃ pos', body i pos = Some pos'
      ∧ itemSize pos' = 3%nat
      ∧ count pos' = count pos
      ∧ vertex pos' i = f <$> vertex pos i
      ∧ ∀ j : nat, j ≠ i → vertex pos' j = vertex pos j.

(** The scripts overwrite the position buffer of the geometry they were
    given.  Geometries live in a store; a deformation run on the geometry
    at [geo] replaces the buffer held there. *)
Abbreviation store := (gmap nat BufferAttribute).

Definition runInPlace (f : BufferAttribute → option BufferAttribute)
    (geo : nat) (h : store) : option store :=
  pos ← h !! geo; pos' ← f pos; Some (<[geo := pos']> h).

(** ** Values shared by the three scripts *)

(** How a tick ends: normally, or with an uncaught exception.  What was
    written before the exception stays written. *)
Inductive completion (S : Type) : Type :=
  | Normal (s : S)
  | Throw (s : S) (error : string).
Arguments Normal {S} s.
Arguments Throw {S} s error.

Definition state_of {S : Type} (c : completion S) : S :=
  match c with Normal s => s | Throw s _ => s end.

(** [if (s)] on a value that is a string or [undefined]. *)
Definition truthy (s : option string) : bool :=
  match s with
  | Some s => bool_decide (s ≠ "")
  | None => false
  end.

(** [${s}] inside a template literal. *)
Definition interpolate (s : option string) : string :=
  default "undefined" s.

(** The pointer event a tick can see through the global [event]. *)
Record MouseEvent : Type := mkMouseEvent { clientX : R; clientY : R }.

(** ** heart/logic.js *)

Module Heart.

(** Lines 48-59. *)
Definition deformVentricleGeo := deformLoop 0.2 1.2.

(** [mesh.userData = { name: ..., info: ... }] *)
Record UserData : Type :=
  mkUserData { name : option string; info : option string }.

Definition ventricles : UserData :=
  mkUserData (Some "Ventricles") (Some "Pumps blood to lungs and body.").
Definition atrium : UserData :=
  mkUserData (Some "Atria") (Some "Receives blood from veins.").
Definition aorta : UserData :=
  mkUserData (Some "Aorta") (Some "Main artery carrying oxygenated blood.").

(** The page elements the tick writes to. *)
Record Dom : Type := mkDom {
  cursor : string;                  (* document.body.style.cursor *)
  tooltip_opacity : R;              (* tooltip.style.opacity *)
  tooltip_innerText : string;
  tooltip_left : R;                 (* tooltip.style.left, in px *)
  tooltip_top : R;                  (* tooltip.style.top, in px *)
  anatomyText_innerHTML : string;
  anatomyText_background : string   (* anatomyText.style.background *)
}.

Record State : Type := mkState {
  bpm : R;
  time : R;
  ventricles_scale : Vector3;
  atrium_scale : Vector3;
  dom : Dom
}.

(** A page whose elements are still empty. *)
Definition emptyDom : Dom := mkDom "" 0 "" 0 0 "" "".

(** Lines 60-90: [bpm = 60], [time = 0], [atrium.scale.set(1.1, 0.6, 1)]. *)
Definition init (d : Dom) : State :=
  mkState 60 0 unit_scale (mkVector3 1.1 0.6 1) d.

(** Lines 93-96: [bpm = e.target.value]; the text of [bpmDisplay] is left
    out. *)
Definition onBpmInput (value : R) (st : State) : State :=
  mkState value (time st) (ventricles_scale st) (atrium_scale st) (dom st).

(** Lines 121-126:
<<
    time += 0.01 * (bpm / 60);
    const scale = 1 + Math.sin(time * 10) * 0.05;
    ventricles.scale.set(scale, scale, scale);
    atrium.scale.set(1 + Math.sin(time * 10 + 1) * 0.03, 1, 1);
>> *)
Definition pulse (st : State) : State :=
  let time := time st + 0.01 * (bpm st / 60) in
  let scale := 1 + sin (time * 10) * 0.05 in
  mkState (bpm st) time
    (set (ventricles_scale st) scale scale scale)
    (set (atrium_scale st) (1 + sin (time * 10 + 1) * 0.03) 1 1)
    (dom st).

(** Lines 129-149.  [intersects] is what
    [raycaster.intersectObjects(heartGroup.children)] returned, nearest
    first.  [event] is not declared in the script, so line 138 reads the
    global [window.event], which is [undefined] ([None]) unless an event
    handler is running. *)
Definition hover (event : option MouseEvent) (intersects : list UserData)
    (d : Dom) : completion Dom :=
  match intersects with
  | object :: _ =>
      if truthy (name object) then
        let d1 := mkDom "pointer" 1 (interpolate (name object))
                    (tooltip_left d) (tooltip_top d)
                    (anatomyText_innerHTML d) (anatomyText_background d) in
        match event with
        | None => Throw d1 "TypeError"
        | Some event =>
            Normal
              (mkDom "pointer" 1 (interpolate (name object))
                 (clientX event + 10) (clientY event + 10)
                 ("<strong>" +:+ interpolate (name object) +:+ "</strong><br>"
                    +:+ interpolate (info object))
                 "rgba(14, 165, 233, 0.2)")
        end
      else Normal d
  | [] =>
      Normal
        (mkDom "default" 0 (tooltip_innerText d)
           (tooltip_left d) (tooltip_top d)
           "Hover over parts of the model to identify them."
           "rgba(255,255,255,0.1)")
  end.

(** Lines 117-153, one frame. *)
Definition animate (event : option MouseEvent) (intersects : list UserData)
    (st : State) : completion State :=
  let st := pulse st in
  let put d :=
    mkState (bpm st) (time st) (ventricles_scale st) (atrium_scale st) d in
  match hover event intersects (dom st) with
  | Normal d => Normal (put d)
  | Throw d e => Throw (put d) e
  end.

(** The angle whose sine drives the ventricle scale. *)
Definition phaseAngle (st : State) : R := time st * 10.

(** By how much one frame moves that angle. *)
Definition phaseAdvance (event : option MouseEvent)
    (intersects : list UserData) (st : State) : R :=
  phaseAngle (state_of (animate event intersects st)) - phaseAngle st.

(** Lines 110-113, [container] being [clientWidth] by [clientHeight]:
<<
    mouse.x = ( event.clientX / container.clientWidth ) * 2 - 1;
    mouse.y = - ( event.clientY / container.clientHeight ) * 2 + 1;
>> *)
Definition onMouseMove (clientWidth clientHeight : R) (event : MouseEvent)
    (mouse : Vector2) : Vector2 :=
  mkVector2 ((clientX event / clientWidth) * 2 - 1)
            ((- (clientY event / clientHeight)) * 2 + 1).

(** Lines 99-104: the wireframe switch and the two materials it drives. *)
Record Wire : Type := mkWire {
  isWireframe : bool;
  heartMaterial_wireframe : bool;
  aortaMat_wireframe : bool
}.

Definition onToggleWireframe (w : Wire) : Wire :=
  let isWireframe := negb (isWireframe w) in
  mkWire isWireframe isWireframe isWireframe.

(** What happens to a session: the slider moves, or a frame is drawn. *)
Inductive Event : Type :=
  | Input (value : R)
  | Frame (event : option MouseEvent) (intersects : list UserData).

(** A frame that ends with an exception leaves its writes behind, and the
    next frame, already requested at line 118, starts from them. *)
Definition step (e : Event) (st : State) : State :=
  match e with
  | Input value => onBpmInput value st
  | Frame event intersects => state_of (animate event intersects st)
  end.

Definition run (es : list Event) (st : State) : State :=
  foldl (λ st e, step e st) st es.

Definition isFrame (e : Event) : bool :=
  match e with Frame _ _ => true | Input _ => false end.

End Heart.

(** ** cardiac-cross-section/logic.js *)

Module CrossSection.

(** Lines 46-55. *)
Definition deformVentricleGeo := deformLoop 0.2 1.2.

Record UserData : Type :=
  mkUserData { name : option string; info : option string }.

Record Dom : Type := mkDom {
  cursor : string;
  tooltip_opacity : R;
  tooltip_innerText : string;
  anatomyText_innerHTML : string;
  anatomyText_background : string;
  anatomyText_border : string
}.

Record State : Type := mkState {
  bpm : R;
  time : R;
  ventricles_scale : Vector3;
  atrium_scale : Vector3;
  dom : Dom
}.

Definition emptyDom : Dom := mkDom "" 0 "" "" "" "".

(** Lines 61-86. *)
Definition init (d : Dom) : State :=
  mkState 60 0 unit_scale (mkVector3 1.1 0.6 1) d.

(** Lines 88-91. *)
Definition onBpmInput (value : R) (st : State) : State :=
  mkState value (time st) (ventricles_scale st) (atrium_scale st) (dom st).

(** Lines 115-119. *)
Definition pulse (st : State) : State :=
  let time := time st + 0.01 * (bpm st / 60) in
  let scale := 1 + sin (time * 10) * 0.05 in
  mkState (bpm st) time
    (set (ventricles_scale st) scale scale scale)
    (set (atrium_scale st) (1 + sin (time * 10 + 1) * 0.03) 1 1)
    (dom st).

(** Lines 121-144: as in the heart script, without the two lines that
    read [event]. *)
Definition hover (intersects : list UserData) (d : Dom) : Dom :=
  match intersects with
  | object :: _ =>
      if truthy (name object) then
        mkDom "pointer" 1 (interpolate (name object))
          ("<strong>" +:+ interpolate (name object) +:+ "</strong><br>"
             +:+ interpolate (info object))
          "rgba(34, 211, 238, 0.2)" "1px solid #22d3ee"
      else d
  | [] =>
      mkDom "default" 0 (tooltip_innerText d)
        "Hover over parts of the model to identify them."
        "rgba(255,255,255,0.05)" "none"
  end.

Definition animate (intersects : list UserData) (st : State) : State :=
  let st := pulse st in
  mkState (bpm st) (time st) (ventricles_scale st) (atrium_scale st)
    (hover intersects (dom st)).

(** The angle whose sine drives the ventricle scale. *)
Definition phaseAngle (st : State) : R := time st * 10.

(** Lines 103-108, [rect] being [container.getBoundingClientRect()]:
<<
    mouse.x = ( (event.clientX - rect.left) / container.clientWidth ) * 2 - 1;
    mouse.y = - ( (event.clientY - rect.top) / container.clientHeight ) * 2 + 1;
>> *)
Definition onMouseMove (rect_left rect_top clientWidth clientHeight : R)
    (event : MouseEvent) (mouse : Vector2) : Vector2 :=
  mkVector2 (((clientX event - rect_left) / clientWidth) * 2 - 1)
            ((- ((clientY event - rect_top) / clientHeight)) * 2 + 1).

End CrossSection.

(** ** cardiac-cycle/logic.js *)

Module CardiacCycle.

(** Lines 94-108:
<<
    let x = pos.getX(i); let y = pos.getY(i); let z = pos.getZ(i);
    if(y < 0) { x *= (1.0 + y * 0.25); z *= (1.0 + y * 0.25); }
    if(z < 0) z *= 0.8;
    pos.setXYZ(i, x, y, z);
>> *)
Definition deformStep (i : nat) (pos : BufferAttribute)
  : option BufferAttribute :=
  x ← getX pos i;
  y ← getY pos i;
  z ← getZ pos i;
  let '(x, z) :=
    if Rlt_dec y 0 then (x * (1.0 + y * 0.25), z * (1.0 + y * 0.25))
    else (x, z) in
  let z := if Rlt_dec z 0 then z * 0.8 else z in
  Some (setXYZ pos i x y z).

Definition deformVentricleGeo (pos : BufferAttribute)
  : option BufferAttribute :=
  for_count deformStep (S (count pos)) 0 pos.

(** What one round does to one vertex. *)
Definition taperApex (v : R * R * R) : R * R * R :=
  let '(x, y, z) := v in
  let '(x, z) :=
    if Rlt_dec y 0 then (x * (1.0 + y * 0.25), z * (1.0 + y * 0.25))
    else (x, z) in
  (x, y, if Rlt_dec z 0 then z * 0.8 else z).

(** An object of [heartGroup.children]: who it is, what material it
    shares, whether that material has an [emissive] colour, and its
    [userData] ([name] and [desc]; both absent for the particle system). *)
Record Object3D : Type := mkObject3D {
  uid : nat;
  material : nat;
  material_emissive : bool;
  name : option string;
  desc : option string
}.

(** Lines 64-86: the materials. *)
Definition tissueMaterial : nat := 0.
Definition arteryMat : nat := 1.
Definition veinMat : nat := 2.
Definition particleMat : nat := 3.

(** Lines 110-205: the children of [heartGroup], in the order added. *)
Definition ventricles : Object3D :=
  mkObject3D 0 tissueMaterial true (Some "Ventricles")
    (Some "Muscular chambers pumping blood to lungs and body.").
Definition atria : Object3D :=
  mkObject3D 1 tissueMaterial true (Some "Atria")
    (Some "Receives blood returning to heart.").
Definition aorta : Object3D :=
  mkObject3D 2 arteryMat true (Some "Aorta")
    (Some "Main artery distributing oxygenated blood.").
Definition pulmo : Object3D :=
  mkObject3D 3 veinMat true (Some "Pulmonary Artery")
    (Some "Carries deoxygenated blood to lungs.").
Definition svc : Object3D :=
  mkObject3D 4 veinMat true (Some "Vena Cava")
    (Some "Returns deoxygenated blood from body.").
Definition flowSystem : Object3D :=
  mkObject3D 5 particleMat false None None.

(** The hover label and the highlight. *)
Record Hover : Type := mkHover {
  hoveredObj : option Object3D;
  emissive : gmap nat Z;            (* material ↦ emissive colour *)
  label_title : string;
  label_desc : string;
  label_opacity : R                 (* labelDiv.style.opacity *)
}.

Record State : Type := mkState {
  bpm : R;
  time : R;
  ventricles_scale : Vector3;
  atria_scale : Vector3;
  hov : Hover
}.

(** Lines 110-123, 212, 226, 269: [bpm = 75], [time = 0],
    [hoveredObj = null], [atria.scale.set(1.2, 0.7, 1)]; the ventricle
    mesh keeps the scale it was created with. *)
Definition init (emissive0 : gmap nat Z) (title desc : string) (opacity : R)
  : State :=
  mkState 75 0 unit_scale (mkVector3 1.2 0.7 1)
    (mkHover None emissive0 title desc opacity).

(** A session whose label is still empty and hidden. *)
Definition start : State := init ∅ "" "" 0.

(** Lines 230-232: [bpm = parseInt(e.target.value)]. *)
Definition onBpmInput (value : Z) (st : State) : State :=
  mkState (IZR value) (time st) (ventricles_scale st) (atria_scale st)
    (hov st).

(** Line 276. *)
Definition beatSpeed (bpm : R) : R := (bpm / 60) * PI * 2.

(** Lines 276-286:
<<
    const beatSpeed = (bpm / 60) * Math.PI * 2;
    time += 0.01;
    const beat = Math.sin(time * beatSpeed * 2);
    const contraction = 1 + (beat > 0.5 ? 0.05 : 0);
    ventricles.scale.lerp(new THREE.Vector3(contraction, contraction, contraction), 0.2);
    atria.scale.lerp(new THREE.Vector3(1.2 + (beat < 0 ? 0.03 : 0), 0.7, 1), 0.2);
>> *)
Definition contraction (beat : R) : R :=
  1 + (if Rgt_dec beat 0.5 then 0.05 else 0).

Definition pulse (st : State) : State :=
  let beatSpeed := beatSpeed (bpm st) in
  let time := time st + 0.01 in
  let beat := sin (time * beatSpeed * 2) in
  let contraction := contraction beat in
  mkState (bpm st) time
    (lerp (ventricles_scale st)
       (mkVector3 contraction contraction contraction) 0.2)
    (lerp (atria_scale st)
       (mkVector3 (1.2 + (if Rlt_dec beat 0 then 0.03 else 0)) 0.7 1) 0.2)
    (hov st).

(** [if (o.material.emissive) o.material.emissive.setHex(c)] *)
Definition setEmissive (o : Object3D) (c : Z) (em : gmap nat Z)
  : gmap nat Z :=
  if material_emissive o then <[material o := c]> em else em.

(** Lines 316-351.  The label's position is left out. *)
Definition hover (intersects : list Object3D) (h : Hover) : Hover :=
  match intersects with
  | object :: _ =>
      if bool_decide (uid <$> hoveredObj h ≠ Some (uid object)) then
        let em :=
          match hoveredObj h with
          | Some old => setEmissive old 0x000000 (emissive h)
          | None => emissive h
          end in
        let em := setEmissive object 0x330000 em in
        if truthy (name object) then
          mkHover (Some object) em
            (interpolate (name object)) (interpolate (desc object)) 1
        else
          mkHover (Some object) em
            (label_title h) (label_desc h) (label_opacity h)
      else h
  | [] =>
      match hoveredObj h with
      | Some old =>
          mkHover None (setEmissive old 0x000000 (emissive h))
            (label_title h) (label_desc h) 0
      | None => h
      end
  end.

(** Lines 271-356, one frame; the particle positions of lines 289-313
    are left out. *)
Definition animate (intersects : list Object3D) (st : State) : State :=
  let st := pulse st in
  mkState (bpm st) (time st) (ventricles_scale st) (atria_scale st)
    (hover intersects (hov st)).

(** The angle [phase] of which [beat] is [sin (phase * 2)]. *)
Definition phaseAngle (st : State) : R := time st * beatSpeed (bpm st).

(** By how much one frame moves that angle. *)
Definition phaseAdvance (intersects : list Object3D) (st : State) : R :=
  phaseAngle (animate intersects st) - phaseAngle st.

(** What the user and the frame clock can do to a session. *)
Inductive reachable : State → Prop :=
  | reach_init em title desc opacity :
      reachable (init em title desc opacity)
  | reach_input value st :
      reachable st → reachable (onBpmInput value st)
  | reach_frame intersects st :
      reachable st → reachable (animate intersects st).

(** Lines 126-134, [CustomSinCurve.getPoint]:
<<
    const tx = Math.cos( t * Math.PI ) * 1.5;
    const ty = Math.sin( t * Math.PI ) * 2.5 + 1;
    const tz = -Math.sin(t * Math.PI) * 0.5;
    return new THREE.Vector3( tx, ty, tz );
>> *)
Definition CustomSinCurve_getPoint (t : R) : Vector3 :=
  let tx := cos (t * PI) * 1.5 in
  let ty := sin (t * PI) * 2.5 + 1 in
  let tz := (- sin (t * PI)) * 0.5 in
  mkVector3 tx ty tz.

(** Lines 220-223, with the window's [innerWidth] and [innerHeight]. *)
Definition onMouseMove (innerWidth innerHeight : R) (event : MouseEvent)
    (mouse : Vector2) : Vector2 :=
  mkVector2 ((clientX event / innerWidth) * 2 - 1)
            ((- (clientY event / innerHeight)) * 2 + 1).

(** What the cut button writes to a material. *)
Inductive Side : Type := FrontSide | DoubleSide.

Record Look : Type :=
  mkLook { opacity : R; transparent : bool; side : Side }.

(** Lines 227-256: the three switches, the visibility of the particle
    system, and the look of each material, by material. *)
Record Controls : Type := mkControls {
  isFlowing : bool;
  showLabels : bool;
  isCut : bool;
  flowSystem_visible : bool;
  looks : gmap nat Look
}.

(** Lines 234-238; the button's [active] class is left out here and
    below. *)
Definition onFlowClick (c : Controls) : Controls :=
  let isFlowing := negb (isFlowing c) in
  mkControls isFlowing (showLabels c) (isCut c) isFlowing (looks c).

(** Lines 240-246. *)
Definition onLabelsClick (c : Controls) : Controls :=
  mkControls (isFlowing c) (negb (showLabels c)) (isCut c)
    (flowSystem_visible c) (looks c).

(** Lines 249-256: the writes go to [ventricles.material].
<<
    isCut = !isCut;
    ventricles.material.opacity = isCut ? 0.4 : 1.0;
    ventricles.material.transparent = isCut;
    ventricles.material.side = isCut ? THREE.DoubleSide : THREE.FrontSide;
>> *)
Definition onCutClick (c : Controls) : Controls :=
  let isCut := negb (isCut c) in
  mkControls (isFlowing c) (showLabels c) isCut (flowSystem_visible c)
    (<[material ventricles :=
         mkLook (if isCut then 0.4 else 1.0) isCut
           (if isCut then DoubleSide else FrontSide)]> (looks c)).

(** What happens to a session: the slider moves, or a frame is drawn. *)
Inductive Event : Type :=
  | Input (value : Z)
  | Frame (intersects : list Object3D).

Definition step (e : Event) (st : State) : State :=
  match e with
  | Input value => onBpmInput value st
  | Frame intersects => animate intersects st
  end.

Definition run (es : list Event) (st : State) : State :=
  foldl (λ st e, step e st) st es.

Definition isFrame (e : Event) : bool :=
  match e with Frame _ => true | Input _ => false end.

(** Line 166. *)
Definition particleCount : nat := 200.

(** [a % 1]: the fractional part, with the sign of [a]. *)
Definition rem1 (a : R) : R :=
  if Rle_dec 0 a then frac_part a else - frac_part (- a).

(** Lines 181-200, without the colours: [random k] is what the [k]-th call
    of [Math.random] returns, and [k] counts the calls made so far.
<<
    const type = Math.random() > 0.5 ? 0 : 1;
    flowPath.push(type);
    flowSpeed.push(0.02 + Math.random()*0.02);
>> *)
Fixpoint initFlow (random : nat → R) (rounds k : nat)
    (flowSpeed : list R) (flowPath : list nat) : list R * list nat :=
  match rounds with
  | O => (flowSpeed, flowPath)
  | S rounds' =>
      let type := if Rgt_dec (random k) 0.5 then 0%nat else 1%nat in
      let flowPath := flowPath ++ [type] in
      let flowSpeed := flowSpeed ++ [0.02 + random (S k) * 0.02] in
      initFlow random rounds' (S (S k)) flowSpeed flowPath
  end.

(** Lines 291-311, one particle; [aortaPath_getPoint] stands for
    [aortaPath.getPoint], a curve of three.js.
<<
    const speed = flowSpeed[i] * (bpm/60);
    const t = (time * speed + i * 0.1) % 1;
    let pos;
    if(flowPath[i] === 0) { pos = aortaPath.getPoint(t); }
    else { pos = new THREE.Vector3(1.5, 3 - (t*5), -0.5); }
    positions[i*3] = pos.x + (Math.random()-0.5)*0.2;
    positions[i*3+1] = pos.y + (Math.random()-0.5)*0.2;
    positions[i*3+2] = pos.z + (Math.random()-0.5)*0.2;
>> *)
Definition flowStep (aortaPath_getPoint : R → Vector3) (random : nat → R)
    (flowSpeed : list R) (flowPath : list nat) (bpm time : R)
    (i : nat) (positions : list R) : option (list R) :=
  s ← flowSpeed !! i;
  path ← flowPath !! i;
  let speed := s * (bpm / 60) in
  let t := rem1 (time * speed + INR i * 0.1) in
  let pos :=
    if decide (path = 0%nat) then aortaPath_getPoint t
    else mkVector3 1.5 (3 - (t * 5)) (-0.5) in
  let positions :=
    <[(i * 3)%nat := vx pos + (random (i * 3)%nat - 0.5) * 0.2]> positions in
  let positions :=
    <[(i * 3 + 1)%nat := vy pos + (random (i * 3 + 1)%nat - 0.5) * 0.2]>
      positions in
  Some (<[(i * 3 + 2)%nat := vz pos + (random (i * 3 + 2)%nat - 0.5) * 0.2]>
          positions).

(** [for(let i=0; i<particleCount; i++)], with [rounds] rounds to go. *)
Fixpoint flowLoop (step : nat → list R → option (list R))
    (rounds i : nat) (positions : list R) : option (list R) :=
  match rounds with
  | O => Some positions
  | S rounds' =>
      positions' ← step i positions; flowLoop step rounds' (S i) positions'
  end.

(** Lines 289-313: the particles move only while [isFlowing] holds;
    [random k] is the [k]-th call of [Math.random] in this frame. *)
Definition updateFlow (isFlowing : bool) (aortaPath_getPoint : R → Vector3)
    (random : nat → R) (flowSpeed : list R) (flowPath : list nat)
    (bpm time : R) (positions : list R) : option (list R) :=
  if isFlowing then
    flowLoop
      (flowStep aortaPath_getPoint random flowSpeed flowPath bpm time)
      particleCount 0 positions
  else Some positions.

(** Particle [i] sits in the box around the vena cava line. *)
Definition inVenaCavaBox (positions : list R) (i : nat) : Prop :=
  ∃ x y z : R,
    positions !! (i * 3)%nat = Some x
    ∧ positions !! (i * 3 + 1)%nat = Some y
    ∧ positions !! (i * 3 + 2)%nat = Some z
    ∧ 1.4 <= x <= 1.6 ∧ -2.1 <= y <= 3.1 ∧ -0.6 <= z <= -0.4.

End CardiacCycle.

(** * Properties *)

(** ** Vertex buffers *)

Section Buffers.

Implicit Types (a pos : BufferAttribute) (i j : nat).

Lemma count_setX a i x : count (setX a i x) = count a.
Proof. unfold count, setX; simpl. by rewrite length_insert. Qed.

Lemma count_setY a i y : count (setY a i y) = count a.
Proof. unfold count, setY; simpl. by rewrite length_insert. Qed.

Lemma count_setZ a i z : count (setZ a i z) = count a.
Proof. unfold count, setZ; simpl. by rewrite length_insert. Qed.

Lemma count_setXYZ a i x y z : count (setXYZ a i x y z) = count a.
Proof. unfold setXYZ. by rewrite count_setZ, count_setY, count_setX. Qed.

(** Below [count], all three coordinates of a vertex are in range. *)
Lemma vertex_in_range a i :
  itemSize a = 3%nat → (i < count a)%nat →
  (i * 3 + 2 < length (array a))%nat.
Proof.
  unfold count. intros -> Hi.
  pose proof (Nat.Div0.mul_div_le (length (array a)) 3). lia.
Qed.

Lemma vertex_below_count a i :
  itemSize a = 3%nat → is_Some (vertex a i) → (i < count a)%nat.
Proof.
  unfold vertex, getX, getY, getZ, count. intros -> [v Hv].
  destruct (array a !! (i * 3 + 2)%nat) as [z|] eqn:Hz.
  - apply lookup_lt_Some in Hz.
    apply Nat.div_le_lower_bound; lia.
  - destruct (array a !! (i * 3)%nat), (array a !! (i * 3 + 1)%nat);
      simpl in Hv; discriminate.
Qed.

Lemma vertex_is_Some a i :
  itemSize a = 3%nat → (i < count a)%nat → is_Some (vertex a i).
Proof.
  intros Hs Hi. pose proof (vertex_in_range a i Hs Hi) as Hlen.
  unfold vertex, getX, getY, getZ. rewrite Hs.
  destruct (lookup_lt_is_Some_2 (array a) (i * 3)%nat) as [x ->]; [lia|].
  destruct (lookup_lt_is_Some_2 (array a) (i * 3 + 1)%nat) as [y ->]; [lia|].
  destruct (lookup_lt_is_Some_2 (array a) (i * 3 + 2)%nat) as [z ->]; [lia|].
  by eexists.
Qed.

Lemma vertex_coords a i x y z :
  vertex a i = Some (x, y, z) →
  getX a i = Some x ∧ getY a i = Some y ∧ getZ a i = Some z.
Proof.
  unfold vertex. intros H.
  destruct (getX a i), (getY a i), (getZ a i); simpl in H; naive_solver.
Qed.

End Buffers.

(** ** The deformation loops *)

Section Loop.

Variable body : nat → BufferAttribute → option BufferAttribute.
Variable f : R * R * R → R * R * R.

Hypothesis Hbody : rewrites_vertex body f.

(** With more fuel than vertices left, the loop ends, having rewritten
    the vertices from [i] on. *)
Lemma for_count_spec (fuel i : nat) (pos : BufferAttribute) :
  itemSize pos = 3%nat → (count pos - i < fuel)%nat →
  ∃ pos', for_count body fuel i pos = Some pos'
    ∧ itemSize pos' = 3%nat
    ∧ count pos' = count pos
    ∧ ∀ j : nat,
        vertex pos' j =
          if decide (i ≤ j < count pos)%nat
          then f <$> vertex pos j else vertex pos j.
Proof.
  revert i pos. induction fuel as [|fuel IH]; intros i pos Hs Hfuel; [lia|].
  simpl. destruct (decide (i < count pos)%nat) as [Hi|Hi].
  - destruct (Hbody i pos Hs Hi) as (pos1 & -> & Hs1 & Hc1 & Hv1 & Hrest).
    simpl.
    destruct (IH (S i) pos1 Hs1) as (pos' & -> & Hs' & Hc' & Hv'); [lia|].
    exists pos'. repeat split; [done|congruence|].
    intros j. rewrite Hv', Hc1.
    destruct (decide (j = i)) as [->|Hji].
    + rewrite decide_False by lia. rewrite decide_True by lia. done.
    + rewrite Hrest by done.
      destruct (decide (S i ≤ j < count pos)%nat),
               (decide (i ≤ j < count pos)%nat); try lia; done.
  - exists pos. repeat split; try done.
    intros j. rewrite decide_False by lia. done.
Qed.

End Loop.

Section StepLemmas.

Implicit Types (pos : BufferAttribute) (i j : nat).

Lemma vertex_setX pos i j x :
  itemSize pos = 3%nat → j ≠ i → vertex (setX pos i x) j = vertex pos j.
Proof.
  intros Hs Hji. unfold vertex, getX, getY, getZ, setX; simpl. rewrite Hs.
  rewrite !list_lookup_insert_ne by lia. done.
Qed.

Lemma vertex_setY pos i j y :
  itemSize pos = 3%nat → j ≠ i → vertex (setY pos i y) j = vertex pos j.
Proof.
  intros Hs Hji. unfold vertex, getX, getY, getZ, setY; simpl. rewrite Hs.
  rewrite !list_lookup_insert_ne by lia. done.
Qed.

Lemma vertex_setZ pos i j z :
  itemSize pos = 3%nat → j ≠ i → vertex (setZ pos i z) j = vertex pos j.
Proof.
  intros Hs Hji. unfold vertex, getX, getY, getZ, setZ; simpl. rewrite Hs.
  rewrite !list_lookup_insert_ne by lia. done.
Qed.

Local Ltac in_range := rewrite ?length_insert; lia.

Lemma vertex_setXY_same pos i x y z0 x' y' :
  itemSize pos = 3%nat → vertex pos i = Some (x, y, z0) →
  vertex (setY (setX pos i x') i y') i = Some (x', y', z0).
Proof.
  intros Hs Hv.
  assert (i < count pos)%nat as Hi by (apply vertex_below_count; eauto).
  pose proof (vertex_in_range pos i Hs Hi) as Hlen.
  apply vertex_coords in Hv as (_ & _ & Hz).
  unfold vertex, getX, getY, getZ, setX, setY in *; simpl. rewrite Hs in *.
  rewrite (list_lookup_insert_ne _ (i * 3 + 1)%nat (i * 3)%nat) by lia.
  rewrite !list_lookup_insert_eq by in_range. simpl.
  rewrite !list_lookup_insert_ne by lia. rewrite Hz. done.
Qed.

Lemma vertex_setXYZ_same pos i x y z :
  itemSize pos = 3%nat → (i < count pos)%nat →
  vertex (setXYZ pos i x y z) i = Some (x, y, z).
Proof.
  intros Hs Hi.
  pose proof (vertex_in_range pos i Hs Hi) as Hlen.
  unfold vertex, getX, getY, getZ, setXYZ, setX, setY, setZ; simpl.
  rewrite Hs.
  rewrite (list_lookup_insert_ne _ (i * 3 + 2)%nat (i * 3)%nat) by lia.
  rewrite (list_lookup_insert_ne _ (i * 3 + 1)%nat (i * 3)%nat) by lia.
  rewrite (list_lookup_insert_ne _ (i * 3 + 2)%nat (i * 3 + 1)%nat) by lia.
  rewrite !list_lookup_insert_eq by in_range. done.
Qed.

(** The heart and cross-section round. *)
Lemma deformStep_rewrites (taper stretch : R) :
  rewrites_vertex (deformStep taper stretch) (deformVertex taper stretch).
Proof.
  intros i pos Hs Hi.
  destruct (vertex_is_Some pos i Hs Hi) as [[[x y] z] Hv].
  destruct (vertex_coords _ _ _ _ _ Hv) as (Hx & Hy & Hz).
  unfold deformStep. rewrite Hx, Hy, Hz. simpl.
  eexists. split; [done|]. split_and!.
  - done.
  - by rewrite count_setY, count_setX.
  - rewrite Hv. simpl.
    rewrite (vertex_setXY_same pos i x y z) by done.
    do 3 f_equal. lra.
  - intros j Hj. rewrite vertex_setY, vertex_setX; done.
Qed.

(** The cardiac-cycle round. *)
Lemma cycle_deformStep_rewrites :
  rewrites_vertex CardiacCycle.deformStep CardiacCycle.taperApex.
Proof.
  intros i pos Hs Hi.
  destruct (vertex_is_Some pos i Hs Hi) as [[[x y] z] Hv].
  destruct (vertex_coords _ _ _ _ _ Hv) as (Hx & Hy & Hz).
  unfold CardiacCycle.deformStep. rewrite Hx, Hy, Hz. simpl.
  destruct (Rlt_dec y 0) as [Hy0|Hy0] eqn:Ey;
    (eexists; split; [done|]; split_and!;
     [ done
     | by rewrite count_setXYZ
     | rewrite Hv; simpl; rewrite Ey; by rewrite vertex_setXYZ_same
     | intros j Hj; unfold setXYZ;
       rewrite vertex_setZ, vertex_setY, vertex_setX; done ]).
Qed.

End StepLemmas.

(** ** The Shape Deformer *)

(** Both loops end and rewrite every vertex below [count]. *)
Lemma deformLoop_spec (taper stretch : R) (pos : BufferAttribute) :
  itemSize pos = 3%nat →
  ∃ out, deformLoop taper stretch pos = Some out
    ∧ itemSize out = 3%nat
    ∧ count out = count pos
    ∧ ∀ i : nat, vertex out i = deformVertex taper stretch <$> vertex pos i.
Proof.
  intros Hs.
  destruct (for_count_spec _ _ (deformStep_rewrites taper stretch)
              (S (count pos)) 0 pos Hs) as (out & Hrun & Hs' & Hc & Hv); [lia|].
  exists out. split_and!; try done.
  intros i. rewrite Hv. case_decide as Hi; [done|].
  destruct (vertex pos i) eqn:Hvi; [|done].
  exfalso. apply Hi. split; [lia|]. apply vertex_below_count; eauto.
Qed.

Lemma cycle_deformVentricleGeo_spec (pos : BufferAttribute) :
  itemSize pos = 3%nat →
  ∃ out, CardiacCycle.deformVentricleGeo pos = Some out
    ∧ itemSize out = 3%nat
    ∧ count out = count pos
    ∧ ∀ i : nat, vertex out i = CardiacCycle.taperApex <$> vertex pos i.
Proof.
  intros Hs.
  destruct (for_count_spec _ _ cycle_deformStep_rewrites
              (S (count pos)) 0 pos Hs) as (out & Hrun & Hs' & Hc & Hv); [lia|].
  exists out. split_and!; try done.
  intros i. rewrite Hv. case_decide as Hi; [done|].
  destruct (vertex pos i) eqn:Hvi; [|done].
  exfalso. apply Hi. split; [lia|]. apply vertex_below_count; eauto.
Qed.

(** C1.  For every taper [t] and stretch [s], the deformation loop of the
    heart and cross-section scripts, run on a position buffer (three
    numbers per vertex), ends, keeps the number of vertices, and leaves at
    index [i] exactly [(x*(1 - y*t), y*s, z)], where [(x, y, z)] is the
    input vertex at index [i]: [x'] is computed from the original [y], and
    [z] is untouched. *)
Theorem deformLoop_vertex_exact (t s : R) (posAttribute : BufferAttribute) :
  itemSize posAttribute = 3%nat →
  ∃ out, deformLoop t s posAttribute = Some out
    ∧ count out = count posAttribute
    ∧ ∀ (i : nat) (x y z : R),
        vertex posAttribute i = Some (x, y, z) →
        vertex out i = Some (x * (1 - y * t), y * s, z).
Proof.
  intros Hs.
  destruct (deformLoop_spec t s posAttribute Hs) as (out & Hrun & _ & Hc & Hv).
  exists out. split_and!; try done.
  intros i x y z Hi. rewrite Hv, Hi. done.
Qed.

Lemma deformLoop_vertex_exact_witness :
  let posAttribute := mkAttr [1; 1; 0; 2; -1; 3] 3 in
  itemSize posAttribute = 3%nat
  ∧ ∃ out, deformLoop 0.2 1.2 posAttribute = Some out
      ∧ count out = count posAttribute
      ∧ ∀ (i : nat) (x y z : R),
          vertex posAttribute i = Some (x, y, z) →
          vertex out i = Some (x * (1 - y * 0.2), y * 1.2, z).
Proof.
  split; [reflexivity|].
  apply (deformLoop_vertex_exact 0.2 1.2 (mkAttr [1; 1; 0; 2; -1; 3] 3)).
  reflexivity.
Defined.

(** The scripts' own constants. *)
Lemma heart_deformVentricleGeo_vertex (pos : BufferAttribute) :
  itemSize pos = 3%nat →
  ∃ out, Heart.deformVentricleGeo pos = Some out
    ∧ CrossSection.deformVentricleGeo pos = Some out
    ∧ count out = count pos
    ∧ ∀ (i : nat) (x y z : R),
        vertex pos i = Some (x, y, z) →
        vertex out i = Some (x * (1 - y * 0.2), y * 1.2, z).
Proof.
  intros Hs.
  destruct (deformLoop_spec 0.2 1.2 pos Hs) as (out & Hrun & _ & Hc & Hv).
  exists out. split_and!; try done.
  intros i x y z Hi. rewrite Hv, Hi. done.
Qed.

(** Running a deformation in place stores its result where the input was. *)
Lemma runInPlace_lookup (f : BufferAttribute → option BufferAttribute)
    (geo : nat) (h : store) (pos out : BufferAttribute) :
  h !! geo = Some pos → f pos = Some out →
  ∃ h', runInPlace f geo h = Some h' ∧ h' !! geo = Some out
    ∧ ∀ g : nat, g ≠ geo → h' !! g = h !! g.
Proof.
  intros Hpos Hout. unfold runInPlace. rewrite Hpos. simpl. rewrite Hout. simpl.
  exists (<[geo := out]> h). split_and!; [done| |].
  - by rewrite lookup_insert_eq.
  - intros g Hg. by rewrite lookup_insert_ne.
Qed.

(** C8, as stated, fails: the deformer is not a pure function.  It writes
    over the surface it is applied to, and the base surface it was given
    is no longer there afterwards. *)
Lemma deform_overwrites_base_surface :
  let base := mkAttr [1; 1; 0] 3 in
  let h : store := {[ 0%nat := base ]} in
  ∃ h' : store,
    runInPlace Heart.deformVentricleGeo 0 h = Some h'
    ∧ h' !! 0%nat = Some (mkAttr [1 * (1.0 - 1 * 0.2); 1 * 1.2; 0] 3)
    ∧ h' !! 0%nat ≠ Some base.
Proof.
  intros base h.
  destruct (runInPlace_lookup Heart.deformVentricleGeo 0 h base
              (mkAttr [1 * (1.0 - 1 * 0.2); 1 * 1.2; 0] 3))
    as (h' & Hrun & Hh' & _); [by apply lookup_singleton_eq|reflexivity|].
  exists h'. split_and!; [done..|].
  rewrite Hh'. intros [= Hx _]. lra.
Qed.

(** A deformation that rewrites every vertex by [fv], run in place: on
    two stores that hold the same vertex data, and then once more on the
    first. *)
Lemma runInPlace_same_data
    (f : BufferAttribute → option BufferAttribute)
    (fv : R * R * R → R * R * R)
    (h1 h2 : store) (g1 g2 : nat) (pos : BufferAttribute) :
  (∀ p : BufferAttribute, itemSize p = 3%nat →
     ∃ out, f p = Some out ∧ itemSize out = 3%nat ∧ count out = count p
       ∧ ∀ i : nat, vertex out i = fv <$> vertex p i) →
  itemSize pos = 3%nat → h1 !! g1 = Some pos → h2 !! g2 = Some pos →
  ∃ (out again : BufferAttribute) (h1' h2' h1'' : store),
    runInPlace f g1 h1 = Some h1'
    ∧ runInPlace f g2 h2 = Some h2'
    ∧ h1' !! g1 = Some out ∧ h2' !! g2 = Some out
    ∧ (∀ g : nat, g ≠ g1 → h1' !! g = h1 !! g)
    ∧ count out = count pos
    ∧ (∀ i : nat, vertex out i = fv <$> vertex pos i)
    ∧ runInPlace f g1 h1' = Some h1''
    ∧ h1'' !! g1 = Some again
    ∧ (∀ i : nat, vertex again i = fv <$> (fv <$> vertex pos i)).
Proof.
  intros Hf Hs H1 H2.
  destruct (Hf pos Hs) as (out & Hrun & Hs' & Hc & Hv).
  destruct (Hf out Hs') as (again & Hrun' & _ & _ & Hv').
  destruct (runInPlace_lookup f g1 h1 pos out H1 Hrun)
    as (h1' & Hh1 & Hout1 & Hrest).
  destruct (runInPlace_lookup f g2 h2 pos out H2 Hrun)
    as (h2' & Hh2 & Hout2 & _).
  destruct (runInPlace_lookup f g1 h1' out again Hout1 Hrun')
    as (h1'' & Hh1' & Hagain & _).
  exists out, again, h1', h2', h1''. split_and!; try done.
  intros i. by rewrite Hv', Hv.
Qed.

(** C8, amended.  The heart loop and the cardiac-cycle loop have no
    hidden state but are not pure: each writes its output over the
    surface it is given and touches no other surface.  Run on two
    surfaces that hold the same base vertex data, wherever they are
    stored, it ends on both and leaves the same output on both, the
    vertex count kept and every vertex rewritten from its own coordinates
    alone: [(x*(1 - y*0.2), y*1.2, z)] in the heart script, the apex
    taper in the cardiac-cycle script.  Run a second time on the same
    surface, it deforms the deformed vertices again:
    [(x*(1 - y*0.2)*(1 - y*1.2*0.2), y*1.2*1.2, z)] in the heart script,
    the apex taper applied twice in the cardiac-cycle script. *)
Theorem deform_in_place (h1 h2 : store) (g1 g2 : nat)
    (pos : BufferAttribute) :
  itemSize pos = 3%nat → h1 !! g1 = Some pos → h2 !! g2 = Some pos →
  (∃ (out again : BufferAttribute) (h1' h2' h1'' : store),
      runInPlace Heart.deformVentricleGeo g1 h1 = Some h1'
      ∧ runInPlace Heart.deformVentricleGeo g2 h2 = Some h2'
      ∧ h1' !! g1 = Some out ∧ h2' !! g2 = Some out
      ∧ (∀ g : nat, g ≠ g1 → h1' !! g = h1 !! g)
      ∧ count out = count pos
      ∧ (∀ (i : nat) (x y z : R),
           vertex pos i = Some (x, y, z) →
           vertex out i = Some (x * (1 - y * 0.2), y * 1.2, z))
      ∧ runInPlace Heart.deformVentricleGeo g1 h1' = Some h1''
      ∧ h1'' !! g1 = Some again
      ∧ (∀ (i : nat) (x y z : R),
           vertex pos i = Some (x, y, z) →
           vertex again i
           = Some (x * (1 - y * 0.2) * (1 - y * 1.2 * 0.2),
                   y * 1.2 * 1.2, z)))
  ∧ (∃ (out again : BufferAttribute) (h1' h2' h1'' : store),
      runInPlace CardiacCycle.deformVentricleGeo g1 h1 = Some h1'
      ∧ runInPlace CardiacCycle.deformVentricleGeo g2 h2 = Some h2'
      ∧ h1' !! g1 = Some out ∧ h2' !! g2 = Some out
      ∧ (∀ g : nat, g ≠ g1 → h1' !! g = h1 !! g)
      ∧ count out = count pos
      ∧ (∀ (i : nat) (v : R * R * R),
           vertex pos i = Some v →
           vertex out i = Some (CardiacCycle.taperApex v))
      ∧ runInPlace CardiacCycle.deformVentricleGeo g1 h1' = Some h1''
      ∧ h1'' !! g1 = Some again
      ∧ (∀ (i : nat) (v : R * R * R),
           vertex pos i = Some v →
           vertex again i
           = Some (CardiacCycle.taperApex (CardiacCycle.taperApex v)))).
Proof.
  intros Hs H1 H2. split.
  - destruct (runInPlace_same_data Heart.deformVentricleGeo
                (deformVertex 0.2 1.2) h1 h2 g1 g2 pos
                (deformLoop_spec 0.2 1.2) Hs H1 H2)
      as (out & again & h1' & h2' & h1'' & Hr1 & Hr2 & Ho1 & Ho2 & Hrest
          & Hc & Hv & Hr1' & Hagain & Hv').
    exists out, again, h1', h2', h1''. split_and!; try done.
    + intros i x y z Hi. rewrite Hv, Hi. done.
    + intros i x y z Hi. rewrite Hv', Hi. done.
  - destruct (runInPlace_same_data CardiacCycle.deformVentricleGeo
                CardiacCycle.taperApex h1 h2 g1 g2 pos
                cycle_deformVentricleGeo_spec Hs H1 H2)
      as (out & again & h1' & h2' & h1'' & Hr1 & Hr2 & Ho1 & Ho2 & Hrest
          & Hc & Hv & Hr1' & Hagain & Hv').
    exists out, again, h1', h2', h1''. split_and!; try done.
    + intros i v Hi. rewrite Hv, Hi. done.
    + intros i v Hi. rewrite Hv', Hi. done.
Qed.

Lemma deform_in_place_witness :
  let pos := mkAttr [1; 1; 0; 2; -1; -3] 3 in
  let h1 : store := {[ 0%nat := pos ]} in
  let h2 : store := {[ 7%nat := pos; 2%nat := mkAttr [5; 5; 5] 3 ]} in
  itemSize pos = 3%nat ∧ h1 !! 0%nat = Some pos ∧ h2 !! 7%nat = Some pos
  ∧ (∃ (out again : BufferAttribute) (h1' h2' h1'' : store),
      runInPlace Heart.deformVentricleGeo 0 h1 = Some h1'
      ∧ runInPlace Heart.deformVentricleGeo 7 h2 = Some h2'
      ∧ h1' !! 0%nat = Some out ∧ h2' !! 7%nat = Some out
      ∧ vertex out 1 = Some (2 * (1 - -1 * 0.2), -1 * 1.2, -3)
      ∧ runInPlace Heart.deformVentricleGeo 0 h1' = Some h1''
      ∧ h1'' !! 0%nat = Some again
      ∧ vertex again 1
        = Some (2 * (1 - -1 * 0.2) * (1 - -1 * 1.2 * 0.2),
                -1 * 1.2 * 1.2, -3))
  ∧ (∃ (out again : BufferAttribute) (h1' h2' h1'' : store),
      runInPlace CardiacCycle.deformVentricleGeo 0 h1 = Some h1'
      ∧ runInPlace CardiacCycle.deformVentricleGeo 7 h2 = Some h2'
      ∧ h1' !! 0%nat = Some out ∧ h2' !! 7%nat = Some out
      ∧ vertex out 1 = Some (CardiacCycle.taperApex (2, -1, -3))
      ∧ runInPlace CardiacCycle.deformVentricleGeo 0 h1' = Some h1''
      ∧ h1'' !! 0%nat = Some again
      ∧ vertex again 1
        = Some (CardiacCycle.taperApex (CardiacCycle.taperApex (2, -1, -3)))).
Proof.
  intros pos h1 h2.
  split; [reflexivity|]. split; [reflexivity|]. split; [reflexivity|].
  destruct (deform_in_place h1 h2 0 7 pos) as [Hheart Hcycle];
    [reflexivity..|].
  split.
  - destruct Hheart as (out & again & h1' & h2' & h1'' & Hr1 & Hr2 & Ho1
                        & Ho2 & _ & _ & Hv & Hr1' & Hagain & Hv').
    exists out, again, h1', h2', h1''.
    split; [exact Hr1|]. split; [exact Hr2|]. split; [exact Ho1|].
    split; [exact Ho2|]. split; [apply Hv; reflexivity|].
    split; [exact Hr1'|]. split; [exact Hagain|]. apply Hv'; reflexivity.
  - destruct Hcycle as (out & again & h1' & h2' & h1'' & Hr1 & Hr2 & Ho1
                        & Ho2 & _ & _ & Hv & Hr1' & Hagain & Hv').
    exists out, again, h1', h2', h1''.
    split; [exact Hr1|]. split; [exact Hr2|]. split; [exact Ho1|].
    split; [exact Ho2|]. split; [apply Hv; reflexivity|].
    split; [exact Hr1'|]. split; [exact Hagain|]. apply Hv'; reflexivity.
Defined.

(** ** The Beat Animator: heart and cross-section *)

Lemma heart_animate_pulse (event : option MouseEvent)
    (intersects : list Heart.UserData) (st : Heart.State) :
  let st' := state_of (Heart.animate event intersects st) in
  Heart.bpm st' = Heart.bpm st
  ∧ Heart.time st' = Heart.time st + 0.01 * (Heart.bpm st / 60)
  ∧ Heart.ventricles_scale st' = Heart.ventricles_scale (Heart.pulse st)
  ∧ Heart.atrium_scale st' = Heart.atrium_scale (Heart.pulse st).
Proof.
  unfold Heart.animate.
  destruct (Heart.hover event intersects (Heart.dom (Heart.pulse st)));
    simpl; done.
Qed.

Lemma sine_scale_bounded (a x : R) :
  0 <= a → 1 - a <= 1 + sin x * a <= 1 + a.
Proof. intros Ha. pose proof (SIN_bound x). nra. Qed.

(** C2.  For every [bpm > 0] and [time >= 0], the scale that a frame of
    the heart script, and of the cross-section script, sets on the three
    axes of the ventricles, [1 + sin(time * 10) * 0.05], lies in
    [[1 - 0.05, 1 + 0.05]]. *)
Theorem ventricle_scale_bounded (bpm time : R) :
  bpm > 0 → time >= 0 →
  (∀ event intersects (st : Heart.State),
      Heart.bpm st = bpm → Heart.time st = time →
      within (1 - 0.05) (1 + 0.05)
        (Heart.ventricles_scale
           (state_of (Heart.animate event intersects st))))
  ∧ (∀ intersects (st : CrossSection.State),
      CrossSection.bpm st = bpm → CrossSection.time st = time →
      within (1 - 0.05) (1 + 0.05)
        (CrossSection.ventricles_scale
           (CrossSection.animate intersects st))).
Proof.
  intros _ _. split.
  - intros event intersects st _ _.
    destruct (heart_animate_pulse event intersects st) as (_ & _ & -> & _).
    unfold within; simpl. split_and!; apply sine_scale_bounded; lra.
  - intros intersects st _ _.
    unfold within; simpl. split_and!; apply sine_scale_bounded; lra.
Qed.

Lemma ventricle_scale_bounded_witness :
  60 > 0 ∧ 0 >= 0
  ∧ within (1 - 0.05) (1 + 0.05)
      (Heart.ventricles_scale
         (state_of (Heart.animate None [] (Heart.init Heart.emptyDom))))
  ∧ within (1 - 0.05) (1 + 0.05)
      (CrossSection.ventricles_scale
         (CrossSection.animate [] (CrossSection.init CrossSection.emptyDom))).
Proof.
  split; [lra|]. split; [lra|].
  destruct (ventricle_scale_bounded 60 0) as [Hheart Hcross]; [lra|lra|].
  split; [apply Hheart|apply Hcross]; reflexivity.
Defined.

(** C3, as stated, fails: a frame of the cardiac-cycle script moves [time]
    by 0.01 whatever [bpm] is; at the initial 75 bpm that is not
    [0.01 * (bpm / 60)]. *)
Lemma cycle_time_step_ignores_bpm :
  CardiacCycle.time (CardiacCycle.animate [] CardiacCycle.start)
    - CardiacCycle.time CardiacCycle.start
  ≠ 0.01 * (CardiacCycle.bpm CardiacCycle.start / 60).
Proof. simpl. lra. Qed.

(** C3, amended.  A frame of the heart script and of the cross-section
    script adds [0.01 * (bpm / 60)] to [time].  A frame of the
    cardiac-cycle script adds 0.01 to [time]; there it is the phase,
    [time * beatSpeed] with [beatSpeed = (bpm / 60) * 2 * PI], that is
    proportional to the current [bpm]. *)
Theorem time_step_per_variant :
  (∀ event intersects (st : Heart.State),
      Heart.time (state_of (Heart.animate event intersects st))
      = Heart.time st + 0.01 * (Heart.bpm st / 60))
  ∧ (∀ intersects (st : CrossSection.State),
      CrossSection.time (CrossSection.animate intersects st)
      = CrossSection.time st + 0.01 * (CrossSection.bpm st / 60))
  ∧ (∀ intersects (st : CardiacCycle.State),
      let st' := CardiacCycle.animate intersects st in
      CardiacCycle.time st' = CardiacCycle.time st + 0.01
      ∧ CardiacCycle.phaseAngle st'
        = CardiacCycle.bpm st * ((CardiacCycle.time st + 0.01) * (2 * PI / 60))).
Proof.
  split_and!.
  - intros event intersects st.
    by destruct (heart_animate_pulse event intersects st) as (_ & -> & _).
  - done.
  - intros intersects st. simpl. split; [done|].
    unfold CardiacCycle.phaseAngle, CardiacCycle.beatSpeed; simpl. lra.
Qed.

(** C5, as stated, fails: a slider value of 0 is stored as it is, and the
    next frame of the heart script leaves [time] where it was. *)
Lemma bpm_zero_stalls :
  let st := Heart.onBpmInput 0 (Heart.init Heart.emptyDom) in
  ¬ (Heart.bpm st > 0)
  ∧ ¬ (Heart.time (state_of (Heart.animate None [] st)) > Heart.time st).
Proof. simpl. split; lra. Qed.

(** C5, amended.  A slider value of 0 is stored and used as it is.  In the
    heart and cross-section scripts the quotient [bpm / 60] is then 0 and
    a frame leaves [time] unchanged.  In the cardiac-cycle script [time]
    still moves by 0.01, but the phase stays 0 and the ventricles are
    pulled toward scale 1. *)
Theorem bpm_zero_unclamped :
  (∀ event intersects (st : Heart.State),
      let st0 := Heart.onBpmInput 0 st in
      Heart.bpm st0 = 0 ∧ Heart.bpm st0 / 60 = 0
      ∧ Heart.time (state_of (Heart.animate event intersects st0))
        = Heart.time st)
  ∧ (∀ intersects (st : CrossSection.State),
      let st0 := CrossSection.onBpmInput 0 st in
      CrossSection.bpm st0 = 0 ∧ CrossSection.bpm st0 / 60 = 0
      ∧ CrossSection.time (CrossSection.animate intersects st0)
        = CrossSection.time st)
  ∧ (∀ intersects (st : CardiacCycle.State),
      let st0 := CardiacCycle.onBpmInput 0 st in
      let st' := CardiacCycle.animate intersects st0 in
      CardiacCycle.bpm st0 = 0
      ∧ CardiacCycle.time st' = CardiacCycle.time st + 0.01
      ∧ CardiacCycle.phaseAngle st' = 0
      ∧ CardiacCycle.ventricles_scale st'
        = lerp (CardiacCycle.ventricles_scale st) (mkVector3 1 1 1) 0.2).
Proof.
  split_and!.
  - intros event intersects st st0.
    destruct (heart_animate_pulse event intersects st0) as (_ & -> & _).
    subst st0; simpl. split_and!; lra.
  - intros intersects st. simpl. split_and!; lra.
  - intros intersects st. simpl. split_and!; try done.
    + unfold CardiacCycle.phaseAngle, CardiacCycle.beatSpeed; simpl. lra.
    + unfold CardiacCycle.beatSpeed, CardiacCycle.contraction.
      replace ((CardiacCycle.time st + 0.01) * (0 / 60 * PI * 2) * 2)
        with 0 by lra.
      rewrite sin_0. destruct (Rgt_dec 0 0.5) as [H|_]; [lra|].
      do 2 f_equal; lra.
Qed.

(** C6, as stated, fails: after the first frame of the heart script the
    atrium is scaled along x only; its x and y factors differ. *)
Lemma atrium_scale_not_uniform :
  ¬ uniform
      (Heart.atrium_scale
         (state_of (Heart.animate None [] (Heart.init Heart.emptyDom)))).
Proof.
  unfold uniform; simpl. intros [Hxy _].
  replace ((0 + 0.01 * (60 / 60)) * 10 + 1) with 1.1 in Hxy by lra.
  assert (0 < sin 1.1) as Hsin.
  { pose proof PI2_3_2. apply sin_gt_0; lra. }
  lra.
Qed.

(** C6, amended.  On every frame of the heart script and of the
    cross-section script the ventricles get the same factor
    [1 + sin(phase) * 0.05] on all three axes, while the atrium gets
    [1 + sin(phase + 1) * 0.03] on its x axis and 1 on its y and z axes:
    the atrium runs 1 radian ahead and is not scaled uniformly. *)
Theorem pulse_scales :
  (∀ event intersects (st : Heart.State),
      let st' := state_of (Heart.animate event intersects st) in
      let phase := Heart.phaseAngle st' in
      uniform (Heart.ventricles_scale st')
      ∧ vx (Heart.ventricles_scale st') = 1 + sin phase * 0.05
      ∧ Heart.atrium_scale st'
        = mkVector3 (1 + sin (phase + 1) * 0.03) 1 1)
  ∧ (∀ intersects (st : CrossSection.State),
      let st' := CrossSection.animate intersects st in
      let phase := CrossSection.phaseAngle st' in
      uniform (CrossSection.ventricles_scale st')
      ∧ vx (CrossSection.ventricles_scale st') = 1 + sin phase * 0.05
      ∧ CrossSection.atrium_scale st'
        = mkVector3 (1 + sin (phase + 1) * 0.03) 1 1).
Proof.
  split.
  - intros event intersects st st' phase. subst phase st'.
    unfold Heart.phaseAngle.
    destruct (heart_animate_pulse event intersects st)
      as (_ & -> & -> & ->).
    unfold uniform; simpl. done.
  - intros intersects st. unfold uniform; simpl. done.
Qed.

(** C7.  Between two sessions that differ in [bpm], the one with the
    larger [bpm] moves its phase angle strictly further in one frame, in
    the heart script and in the cardiac-cycle script alike. *)
Theorem phase_advance_increases_with_bpm (bpm1 bpm2 : R) :
  bpm1 < bpm2 →
  (∀ event intersects (st1 st2 : Heart.State),
      Heart.bpm st1 = bpm1 → Heart.bpm st2 = bpm2 →
      Heart.phaseAdvance event intersects st1
      < Heart.phaseAdvance event intersects st2)
  ∧ (∀ intersects (st1 st2 : CardiacCycle.State),
      CardiacCycle.bpm st1 = bpm1 → CardiacCycle.bpm st2 = bpm2 →
      CardiacCycle.phaseAdvance intersects st1
      < CardiacCycle.phaseAdvance intersects st2).
Proof.
  intros Hlt. split.
  - intros event intersects st1 st2 H1 H2.
    unfold Heart.phaseAdvance, Heart.phaseAngle.
    destruct (heart_animate_pulse event intersects st1) as (_ & -> & _).
    destruct (heart_animate_pulse event intersects st2) as (_ & -> & _).
    lra.
  - intros intersects st1 st2 H1 H2.
    unfold CardiacCycle.phaseAdvance, CardiacCycle.phaseAngle,
      CardiacCycle.beatSpeed; simpl.
    rewrite H1, H2. pose proof PI_RGT_0. nra.
Qed.

Lemma phase_advance_increases_with_bpm_witness :
  60 < 120
  ∧ Heart.phaseAdvance None [] (Heart.onBpmInput 60 (Heart.init Heart.emptyDom))
    < Heart.phaseAdvance None []
        (Heart.onBpmInput 120 (Heart.init Heart.emptyDom))
  ∧ CardiacCycle.phaseAdvance [] (CardiacCycle.onBpmInput 60 CardiacCycle.start)
    < CardiacCycle.phaseAdvance []
        (CardiacCycle.onBpmInput 120 CardiacCycle.start).
Proof.
  split; [lra|].
  destruct (phase_advance_increases_with_bpm 60 120) as [Hheart Hcycle]; [lra|].
  split; [apply Hheart|apply Hcycle]; reflexivity.
Defined.

(** ** The Beat Animator: cardiac cycle *)

(** A lerp step by 0.2 lands on the target only when it started there. *)
Lemma lerp_step_reaches (current target : R) :
  current + (target - current) * 0.2 = target ↔ current = target.
Proof. split; intros; lra. Qed.

(** C4.  On every frame of the cardiac-cycle script the target
    contraction is [1 + (sin(phase * 2) > 0.5 ? 0.05 : 0)], and each
    component of the ventricle scale moves to
    [current + (target - current) * 0.2]; it equals the target after the
    frame only if it already did before. *)
Theorem lub_dub_lerp (intersects : list CardiacCycle.Object3D)
    (st : CardiacCycle.State) :
  let st' := CardiacCycle.animate intersects st in
  let phase := CardiacCycle.phaseAngle st' in
  let target := 1 + (if Rgt_dec (sin (phase * 2)) 0.5 then 0.05 else 0) in
  let current := CardiacCycle.ventricles_scale st in
  let applied := CardiacCycle.ventricles_scale st' in
  (vx applied = vx current + (target - vx current) * 0.2
   ∧ vy applied = vy current + (target - vy current) * 0.2
   ∧ vz applied = vz current + (target - vz current) * 0.2)
  ∧ (vx applied = target ↔ vx current = target)
  ∧ (vy applied = target ↔ vy current = target)
  ∧ (vz applied = target ↔ vz current = target).
Proof.
  simpl. unfold CardiacCycle.phaseAngle, CardiacCycle.contraction; simpl.
  split_and!; try done; apply lerp_step_reaches.
Qed.

Lemma contraction_range (beat : R) :
  1 <= CardiacCycle.contraction beat <= 1.05.
Proof.
  unfold CardiacCycle.contraction. destruct (Rgt_dec beat 0.5); lra.
Qed.

(** A lerp step by 0.2 toward a point of an interval stays in it. *)
Lemma lerp_within (lo hi : R) (v target : Vector3) :
  within lo hi v → within lo hi target → within lo hi (lerp v target 0.2).
Proof. unfold within; simpl. intros (?&?&?) (?&?&?). split_and!; lra. Qed.

(** C10.  In every state a cardiac-cycle session can reach, by frames and
    slider inputs from its start, each component of the ventricle scale
    lies in [[1, 1.05]]. *)
Theorem ventricle_scale_in_range (st : CardiacCycle.State) :
  CardiacCycle.reachable st →
  within 1 1.05 (CardiacCycle.ventricles_scale st).
Proof.
  induction 1 as [em title desc opacity|value st _ IH|intersects st _ IH].
  - unfold within; simpl. lra.
  - exact IH.
  - simpl. apply lerp_within; [exact IH|].
    pose proof (contraction_range
      (sin ((CardiacCycle.time st + 0.01)
            * CardiacCycle.beatSpeed (CardiacCycle.bpm st) * 2))).
    unfold within; simpl. split_and!; lra.
Qed.

Lemma ventricle_scale_in_range_witness :
  let st :=
    CardiacCycle.animate [CardiacCycle.ventricles]
      (CardiacCycle.onBpmInput 120 CardiacCycle.start) in
  CardiacCycle.reachable st
  ∧ within 1 1.05 (CardiacCycle.ventricles_scale st).
Proof.
  intros st.
  assert (CardiacCycle.reachable st) as Hst.
  { apply CardiacCycle.reach_frame, CardiacCycle.reach_input,
      CardiacCycle.reach_init. }
  split; [exact Hst|].
  exact (ventricle_scale_in_range st Hst).
Defined.

(** ** Hover picking *)

(** A ray that hits nothing: the heart script ends the frame normally,
    with the default cursor, the tooltip hidden and the prompt shown. *)
Lemma heart_hover_nothing (event : option MouseEvent) (st : Heart.State) :
  ∃ st', Heart.animate event [] st = Normal st'
    ∧ Heart.cursor (Heart.dom st') = "default"
    ∧ Heart.tooltip_opacity (Heart.dom st') = 0
    ∧ Heart.anatomyText_innerHTML (Heart.dom st')
      = "Hover over parts of the model to identify them.".
Proof. eexists. split; [reflexivity|]. simpl. done. Qed.

(** The cross-section script: the prompt on no hit, and the name and the
    description of the first object hit when it has a name. *)
Lemma cross_section_hover_nothing (st : CrossSection.State) :
  let d := CrossSection.dom (CrossSection.animate [] st) in
  CrossSection.cursor d = "default"
  ∧ CrossSection.tooltip_opacity d = 0
  ∧ CrossSection.anatomyText_innerHTML d
    = "Hover over parts of the model to identify them.".
Proof. simpl. done. Qed.

Lemma cross_section_hover_first (object : CrossSection.UserData)
    (rest : list CrossSection.UserData) (st : CrossSection.State)
    (name info : string) :
  CrossSection.name object = Some name → name ≠ "" →
  CrossSection.info object = Some info →
  let d := CrossSection.dom (CrossSection.animate (object :: rest) st) in
  CrossSection.tooltip_opacity d = 1
  ∧ CrossSection.tooltip_innerText d = name
  ∧ CrossSection.anatomyText_innerHTML d
    = "<strong>" +:+ name +:+ "</strong><br>" +:+ info.
Proof.
  intros Hname Hne Hinfo. simpl. rewrite Hname, Hinfo. simpl.
  rewrite bool_decide_eq_true_2 by done. simpl. done.
Qed.

(** With an event at hand, the heart script does the same. *)
Lemma heart_hover_first_in_handler (event : MouseEvent)
    (object : Heart.UserData) (rest : list Heart.UserData) (st : Heart.State)
    (name info : string) :
  Heart.name object = Some name → name ≠ "" →
  Heart.info object = Some info →
  ∃ st', Heart.animate (Some event) (object :: rest) st = Normal st'
    ∧ Heart.tooltip_innerText (Heart.dom st') = name
    ∧ Heart.anatomyText_innerHTML (Heart.dom st')
      = "<strong>" +:+ name +:+ "</strong><br>" +:+ info.
Proof.
  intros Hname Hne Hinfo. unfold Heart.animate, Heart.hover.
  rewrite Hname, Hinfo. simpl.
  rewrite bool_decide_eq_true_2 by done.
  eexists. split; [reflexivity|]. simpl. done.
Qed.

(** C9.  In the heart script, a frame whose ray first hits the ventricles
    does not surface the pair of name and description: a frame callback
    runs outside any event handler, so the global [event] read at line 138
    is [undefined], and the frame ends with a [TypeError] after the
    tooltip got the name and before the description is written. *)
Theorem heart_hover_first_throws (rest : list Heart.UserData)
    (st : Heart.State) :
  let c := Heart.animate None (Heart.ventricles :: rest) st in
  c = Throw (state_of c) "TypeError"
  ∧ Heart.tooltip_innerText (Heart.dom (state_of c)) = "Ventricles"
  ∧ Heart.anatomyText_innerHTML (Heart.dom (state_of c))
    = Heart.anatomyText_innerHTML (Heart.dom st).
Proof. simpl. done. Qed.

(** The cardiac-cycle script: no hit clears the hover and hides the label
    if something was hovered, and otherwise changes nothing. *)
Lemma cycle_hover_nothing (st : CardiacCycle.State) :
  let h := CardiacCycle.hov st in
  let h' := CardiacCycle.hov (CardiacCycle.animate [] st) in
  CardiacCycle.hoveredObj h' = None
  ∧ (is_Some (CardiacCycle.hoveredObj h) → CardiacCycle.label_opacity h' = 0)
  ∧ (CardiacCycle.hoveredObj h = None → h' = h).
Proof.
  simpl. destruct (CardiacCycle.hoveredObj (CardiacCycle.hov st)) eqn:Hh;
    simpl; split_and!; try done; by intros [? [=]].
Qed.

(** A newly hovered object that has a name gets its name and description
    on the label. *)
Lemma cycle_hover_first (object : CardiacCycle.Object3D)
    (rest : list CardiacCycle.Object3D) (st : CardiacCycle.State)
    (name desc : string) :
  CardiacCycle.name object = Some name → name ≠ "" →
  CardiacCycle.desc object = Some desc →
  CardiacCycle.uid <$> CardiacCycle.hoveredObj (CardiacCycle.hov st)
    ≠ Some (CardiacCycle.uid object) →
  let h' := CardiacCycle.hov (CardiacCycle.animate (object :: rest) st) in
  CardiacCycle.hoveredObj h' = Some object
  ∧ CardiacCycle.label_title h' = name
  ∧ CardiacCycle.label_desc h' = desc
  ∧ CardiacCycle.label_opacity h' = 1.
Proof.
  intros Hname Hne Hdesc Hnew. simpl.
  rewrite bool_decide_eq_true_2 by done.
  rewrite Hname, Hdesc. simpl.
  rewrite bool_decide_eq_true_2 by done. simpl. done.
Qed.

(** The particle system is a child of [heartGroup] without a name: when it
    is hit first, the label keeps what it showed. *)
Lemma cycle_hover_particles (rest : list CardiacCycle.Object3D) :
  let st := CardiacCycle.animate [CardiacCycle.ventricles] CardiacCycle.start in
  let h' :=
    CardiacCycle.hov
      (CardiacCycle.animate (CardiacCycle.flowSystem :: rest) st) in
  CardiacCycle.hoveredObj h' = Some CardiacCycle.flowSystem
  ∧ CardiacCycle.label_title h' = "Ventricles"
  ∧ CardiacCycle.label_opacity h' = 1.
Proof. simpl. done. Qed.

(** * Further properties *)

(** ** The cardiac-cycle deformation *)

(** The loop of cardiac-cycle/logic.js:94-108, run on a position buffer,
    ends, keeps the number of vertices and their [y], scales [x] and [z]
    by [1 + y * 0.25] below the equator, and then scales a negative [z] by
    0.8. *)
Theorem cycle_deform_vertex (pos : BufferAttribute) :
  itemSize pos = 3%nat →
  ∃ out, CardiacCycle.deformVentricleGeo pos = Some out
    ∧ count out = count pos
    ∧ ∀ (i : nat) (x y z : R),
        vertex pos i = Some (x, y, z) →
        ∃ x' z', vertex out i = Some (x', y, z')
          ∧ (y < 0 → x' = x * (1 + y * 0.25))
          ∧ (0 <= y → x' = x)
          ∧ (y < 0 → z * (1 + y * 0.25) < 0 → z' = z * (1 + y * 0.25) * 0.8)
          ∧ (y < 0 → 0 <= z * (1 + y * 0.25) → z' = z * (1 + y * 0.25))
          ∧ (0 <= y → z < 0 → z' = z * 0.8)
          ∧ (0 <= y → 0 <= z → z' = z).
Proof.
  intros Hs.
  destruct (cycle_deformVentricleGeo_spec pos Hs)
    as (out & Hrun & _ & Hc & Hv).
  exists out. split_and!; try done.
  intros i x y z Hi. rewrite Hv, Hi. simpl.
  destruct (Rlt_dec y 0) as [Hy|Hy].
  - destruct (Rlt_dec (z * (1.0 + y * 0.25)) 0) as [Hz|Hz];
      eexists _, _; (split; [reflexivity|]); split_and!; intros; lra.
  - destruct (Rlt_dec z 0) as [Hz|Hz];
      eexists _, _; (split; [reflexivity|]); split_and!; intros; lra.
Qed.

Lemma cycle_deform_vertex_witness :
  let pos := mkAttr [1; 1; 2; 2; -1; -4] 3 in
  itemSize pos = 3%nat
  ∧ ∃ out, CardiacCycle.deformVentricleGeo pos = Some out
      ∧ count out = count pos
      ∧ (∃ x' z', vertex out 1 = Some (x', -1, z')
          ∧ x' = 2 * (1 + -1 * 0.25)
          ∧ z' = -4 * (1 + -1 * 0.25) * 0.8).
Proof.
  intros pos. split; [reflexivity|].
  destruct (cycle_deform_vertex pos) as (out & Hrun & Hc & Hv); [reflexivity|].
  exists out. split; [exact Hrun|]. split; [exact Hc|].
  destruct (Hv 1%nat 2 (-1) (-4)) as (x' & z' & Hout & Hx & _ & Hz & _);
    [reflexivity|].
  exists x', z'. split; [exact Hout|].
  split; [apply Hx; lra|apply Hz; lra].
Defined.

(** The same loop never moves a vertex with [y >= -4], which covers the
    whole sphere of radius 1.8, away from the vertical axis: [x] and [z]
    keep their sign and do not grow. *)
Theorem cycle_deform_shrinks (pos : BufferAttribute) :
  itemSize pos = 3%nat →
  ∃ out, CardiacCycle.deformVentricleGeo pos = Some out
    ∧ ∀ (i : nat) (x y z : R),
        vertex pos i = Some (x, y, z) → -4 <= y →
        ∃ x' z', vertex out i = Some (x', y, z')
          ∧ Rabs x' <= Rabs x ∧ 0 <= x * x'
          ∧ Rabs z' <= Rabs z ∧ 0 <= z * z'.
Proof.
  intros Hs.
  destruct (cycle_deformVentricleGeo_spec pos Hs)
    as (out & Hrun & _ & Hc & Hv).
  exists out. split; [done|].
  intros i x y z Hi Hy. rewrite Hv, Hi. simpl.
  assert (∀ a k : R, 0 <= k <= 1 → Rabs (a * k) <= Rabs a ∧ 0 <= a * (a * k))
    as Hscale.
  { intros a k Hk. rewrite Rabs_mult, (Rabs_right k) by lra.
    pose proof (Rabs_pos a). split; nra. }
  destruct (Rlt_dec y 0) as [Hy0|Hy0].
  - destruct (Hscale x (1.0 + y * 0.25)) as [Hx1 Hx2]; [lra|].
    destruct (Hscale z (1.0 + y * 0.25)) as [Hz1 Hz2]; [lra|].
    destruct (Rlt_dec (z * (1.0 + y * 0.25)) 0) as [Hz|Hz];
      eexists _, _; (split; [reflexivity|]); split_and!; try done.
    + destruct (Hscale (z * (1.0 + y * 0.25)) 0.8) as [Hz3 _]; lra.
    + nra.
  - destruct (Hscale x 1) as [Hx1 Hx2]; [lra|].
    rewrite Rmult_1_r in Hx1, Hx2.
    destruct (Rlt_dec z 0) as [Hz|Hz];
      eexists _, _; (split; [reflexivity|]); split_and!; try done;
      try lra; try nra.
    destruct (Hscale z 0.8) as [Hz3 _]; lra.
Qed.

Lemma cycle_deform_shrinks_witness :
  let pos := mkAttr [1; 1; 2; 2; -1; -4] 3 in
  itemSize pos = 3%nat
  ∧ ∃ out, CardiacCycle.deformVentricleGeo pos = Some out
      ∧ ∃ x' z', vertex out 1 = Some (x', -1, z')
          ∧ Rabs x' <= Rabs 2 ∧ 0 <= 2 * x'
          ∧ Rabs z' <= Rabs (-4) ∧ 0 <= -4 * z'.
Proof.
  intros pos. split; [reflexivity|].
  destruct (cycle_deform_shrinks pos) as (out & Hrun & Hv); [reflexivity|].
  exists out. split; [exact Hrun|].
  apply (Hv 1%nat 2 (-1) (-4)); [reflexivity|lra].
Defined.

(** ** The heart deformation, run again *)

(** Run twice in place, the heart and cross-section loop leaves
    [(x*(1 - y*t)*(1 - y*s*t), y*s*s, z)]: the second taper sees the
    stretched [y]. *)
Theorem deformLoop_twice (t s : R) (pos : BufferAttribute) :
  itemSize pos = 3%nat →
  ∃ out1 out2, deformLoop t s pos = Some out1
    ∧ deformLoop t s out1 = Some out2
    ∧ count out2 = count pos
    ∧ ∀ (i : nat) (x y z : R),
        vertex pos i = Some (x, y, z) →
        vertex out2 i = Some (x * (1 - y * t) * (1 - y * s * t), y * s * s, z).
Proof.
  intros Hs.
  destruct (deformLoop_spec t s pos Hs) as (out1 & Hrun1 & Hs1 & Hc1 & Hv1).
  destruct (deformLoop_spec t s out1 Hs1) as (out2 & Hrun2 & _ & Hc2 & Hv2).
  exists out1, out2. split_and!; try done; [congruence|].
  intros i x y z Hi. rewrite Hv2, Hv1, Hi. done.
Qed.

Lemma deformLoop_twice_witness :
  let pos := mkAttr [1; 1; 0] 3 in
  itemSize pos = 3%nat
  ∧ ∃ out1 out2, deformLoop 0.2 1.2 pos = Some out1
      ∧ deformLoop 0.2 1.2 out1 = Some out2
      ∧ count out2 = count pos
      ∧ vertex out2 0
        = Some (1 * (1 - 1 * 0.2) * (1 - 1 * 1.2 * 0.2), 1 * 1.2 * 1.2, 0).
Proof.
  intros pos. split; [reflexivity|].
  destruct (deformLoop_twice 0.2 1.2 pos)
    as (out1 & out2 & Hrun1 & Hrun2 & Hc & Hv); [reflexivity|].
  exists out1, out2. split; [exact Hrun1|]. split; [exact Hrun2|].
  split; [exact Hc|]. apply Hv. reflexivity.
Defined.

(** ** The heart session *)

Lemma heart_run_cons (e : Heart.Event) (es : list Heart.Event)
    (st : Heart.State) :
  Heart.run (e :: es) st = Heart.run es (Heart.step e st).
Proof. done. Qed.

Lemma heart_step_beat (e : Heart.Event) (st : Heart.State) :
  match e with
  | Heart.Input value =>
      Heart.bpm (Heart.step e st) = value
      ∧ Heart.time (Heart.step e st) = Heart.time st
  | Heart.Frame _ _ =>
      Heart.bpm (Heart.step e st) = Heart.bpm st
      ∧ Heart.time (Heart.step e st)
        = Heart.time st + 0.01 * (Heart.bpm st / 60)
  end.
Proof.
  destruct e as [value|event intersects]; simpl; [done|].
  by destruct (heart_animate_pulse event intersects st) as (-> & -> & _).
Qed.

(** While the slider is not touched, [n] frames of the heart script move
    [time] by [n * 0.01 * (bpm / 60)], whether or not some of them ended
    with an exception: at 60 bpm, a hundred frames make one unit. *)
Theorem heart_time_after_frames (es : list Heart.Event) (st : Heart.State) :
  forallb Heart.isFrame es = true →
  Heart.bpm (Heart.run es st) = Heart.bpm st
  ∧ Heart.time (Heart.run es st)
    = Heart.time st + INR (length es) * (0.01 * (Heart.bpm st / 60)).
Proof.
  revert st. induction es as [|e es IH]; intros st Hes.
  - simpl. split; [done|lra].
  - apply andb_prop in Hes as [He Hes].
    rewrite heart_run_cons.
    destruct (IH (Heart.step e st) Hes) as [-> ->].
    pose proof (heart_step_beat e st) as Hstep.
    destruct e as [value|event intersects]; [done|].
    destruct Hstep as [-> ->].
    split; [done|]. rewrite length_cons, S_INR. lra.
Qed.

Lemma heart_time_after_frames_witness :
  let es := repeat (Heart.Frame None [Heart.ventricles]) 100 in
  let st := Heart.init Heart.emptyDom in
  forallb Heart.isFrame es = true
  ∧ Heart.bpm (Heart.run es st) = Heart.bpm st
  ∧ Heart.time (Heart.run es st)
    = Heart.time st + INR (length es) * (0.01 * (Heart.bpm st / 60)).
Proof.
  intros es st. split; [reflexivity|].
  apply (heart_time_after_frames es st). reflexivity.
Defined.

(** With a slider that never goes below zero, [time] never runs
    backwards in the heart script. *)
Theorem heart_time_never_decreases (es : list Heart.Event)
    (st : Heart.State) :
  0 <= Heart.bpm st →
  (∀ value : R, Heart.Input value ∈ es → 0 <= value) →
  0 <= Heart.bpm (Heart.run es st)
  ∧ Heart.time st <= Heart.time (Heart.run es st).
Proof.
  revert st. induction es as [|e es IH]; intros st Hbpm Hes.
  - simpl. split; [done|lra].
  - rewrite heart_run_cons.
    pose proof (heart_step_beat e st) as Hstep.
    assert (0 <= Heart.bpm (Heart.step e st)
            ∧ Heart.time st <= Heart.time (Heart.step e st)) as [Hb Ht].
    { destruct e as [value|event intersects]; destruct Hstep as [-> ->].
      - split; [|lra]. apply Hes. left.
      - split; [done|lra]. }
    destruct (IH (Heart.step e st) Hb) as [Hb' Ht'].
    { intros value Hin. apply Hes. by right. }
    split; [done|lra].
Qed.

Lemma heart_time_never_decreases_witness :
  let es := [Heart.Frame None []; Heart.Input 0; Heart.Frame None [];
             Heart.Input 120; Heart.Frame None [Heart.aorta]] in
  let st := Heart.init Heart.emptyDom in
  0 <= Heart.bpm st
  ∧ (∀ value : R, Heart.Input value ∈ es → 0 <= value)
  ∧ 0 <= Heart.bpm (Heart.run es st)
  ∧ Heart.time st <= Heart.time (Heart.run es st).
Proof.
  intros es st.
  assert (0 <= Heart.bpm st) as Hbpm by (simpl; lra).
  assert (∀ value : R, Heart.Input value ∈ es → 0 <= value) as Hes.
  { intros value Hin. unfold es in Hin.
    repeat (apply elem_of_cons in Hin as [Hin|Hin];
            [try discriminate; injection Hin as ->; lra|]).
    by apply elem_of_nil in Hin. }
  split; [exact Hbpm|]. split; [exact Hes|].
  exact (heart_time_never_decreases es st Hbpm Hes).
Defined.

(** A frame of the heart script ends with an exception exactly when the
    first object hit has a name and no event handler is running; and then
    the beat has been applied all the same. *)
Theorem heart_frame_throws_iff (event : option MouseEvent)
    (intersects : list Heart.UserData) (st : Heart.State) :
  ((∃ st' error, Heart.animate event intersects st = Throw st' error)
   ↔ event = None
     ∧ ∃ object rest, intersects = object :: rest
         ∧ truthy (Heart.name object) = true)
  ∧ Heart.time (state_of (Heart.animate event intersects st))
    = Heart.time (Heart.pulse st)
  ∧ Heart.ventricles_scale (state_of (Heart.animate event intersects st))
    = Heart.ventricles_scale (Heart.pulse st).
Proof.
  split.
  - unfold Heart.animate, Heart.hover.
    destruct intersects as [|object rest].
    + split; [by intros (? & ? & [=])|by intros (_ & ? & ? & [=] & _)].
    + destruct (truthy (Heart.name object)) eqn:Hname.
      * destruct event as [event|].
        -- split; [by intros (? & ? & [=])|by intros ([=] & _)].
        -- split; [intros _; split; [done|by exists object, rest]|].
           intros _. by eexists _, _.
      * split; [by intros (? & ? & [=])|].
        intros (_ & o & r & [= <- <-] & Ht). congruence.
  - destruct (heart_animate_pulse event intersects st) as (_ & Ht & Hv & _).
    split; [|done]. rewrite Ht. done.
Qed.

(** After any frame of the heart script and of the cross-section script
    the atrium is scaled by a factor in [[0.97, 1.03]] along x and by 1
    along y and z: the scale [(1.1, 0.6, 1)] given to it when it was built
    does not survive the first frame. *)
Theorem atrium_scale_after_frame :
  (∀ event intersects (st : Heart.State),
      let a := Heart.atrium_scale
                 (state_of (Heart.animate event intersects st)) in
      0.97 <= vx a <= 1.03 ∧ vy a = 1 ∧ vz a = 1)
  ∧ (∀ intersects (st : CrossSection.State),
      let a := CrossSection.atrium_scale
                 (CrossSection.animate intersects st) in
      0.97 <= vx a <= 1.03 ∧ vy a = 1 ∧ vz a = 1).
Proof.
  split.
  - intros event intersects st.
    destruct (heart_animate_pulse event intersects st) as (_ & _ & _ & ->).
    simpl. split_and!; try done.
    + pose proof (sine_scale_bounded 0.03
        ((Heart.time st + 0.01 * (Heart.bpm st / 60)) * 10 + 1)). lra.
    + pose proof (sine_scale_bounded 0.03
        ((Heart.time st + 0.01 * (Heart.bpm st / 60)) * 10 + 1)). lra.
  - intros intersects st. simpl. split_and!; try done.
    + pose proof (sine_scale_bounded 0.03
        ((CrossSection.time st + 0.01 * (CrossSection.bpm st / 60)) * 10
         + 1)). lra.
    + pose proof (sine_scale_bounded 0.03
        ((CrossSection.time st + 0.01 * (CrossSection.bpm st / 60)) * 10
         + 1)). lra.
Qed.

(** ** The cardiac-cycle session *)

Lemma cycle_run_cons (e : CardiacCycle.Event) (es : list CardiacCycle.Event)
    (st : CardiacCycle.State) :
  CardiacCycle.run (e :: es) st = CardiacCycle.run es (CardiacCycle.step e st).
Proof. done. Qed.

Lemma cycle_run_snoc (es : list CardiacCycle.Event) (e : CardiacCycle.Event)
    (st : CardiacCycle.State) :
  CardiacCycle.run (es ++ [e]) st
  = CardiacCycle.step e (CardiacCycle.run es st).
Proof. unfold CardiacCycle.run. by rewrite foldl_app. Qed.

Lemma atria_scale_reachable (st : CardiacCycle.State) :
  CardiacCycle.reachable st →
  1.2 <= vx (CardiacCycle.atria_scale st) <= 1.23
  ∧ vy (CardiacCycle.atria_scale st) = 0.7
  ∧ vz (CardiacCycle.atria_scale st) = 1.
Proof.
  induction 1 as [em title desc opacity|value st _ IH|intersects st _ IH].
  - simpl. split_and!; lra.
  - exact IH.
  - destruct IH as (Hx & Hy & Hz). simpl. rewrite Hy, Hz.
    destruct (Rlt_dec _ 0); split_and!; lra.
Qed.

(** The atria keep their flattening: in every state a cardiac-cycle
    session can reach, their scale is 0.7 along y, 1 along z, and between
    1.2 and 1.23 along x. *)
Theorem atria_scale_in_range (st : CardiacCycle.State) :
  CardiacCycle.reachable st →
  1.2 <= vx (CardiacCycle.atria_scale st) <= 1.23
  ∧ vy (CardiacCycle.atria_scale st) = 0.7
  ∧ vz (CardiacCycle.atria_scale st) = 1.
Proof. apply atria_scale_reachable. Qed.

Lemma atria_scale_in_range_witness :
  let st :=
    CardiacCycle.animate [] (CardiacCycle.onBpmInput 90 CardiacCycle.start) in
  CardiacCycle.reachable st
  ∧ 1.2 <= vx (CardiacCycle.atria_scale st) <= 1.23
  ∧ vy (CardiacCycle.atria_scale st) = 0.7
  ∧ vz (CardiacCycle.atria_scale st) = 1.
Proof.
  intros st.
  assert (CardiacCycle.reachable st) as Hst.
  { apply CardiacCycle.reach_frame, CardiacCycle.reach_input,
      CardiacCycle.reach_init. }
  split; [exact Hst|].
  exact (atria_scale_in_range st Hst).
Defined.

(** The ventricles of the cardiac-cycle script are scaled by the same
    factor on the three axes in every state a session can reach. *)
Theorem ventricles_stay_uniform (st : CardiacCycle.State) :
  CardiacCycle.reachable st → uniform (CardiacCycle.ventricles_scale st).
Proof.
  induction 1 as [em title desc opacity|value st _ IH|intersects st _ IH].
  - by unfold uniform.
  - exact IH.
  - destruct IH as [Hxy Hyz]. unfold uniform; simpl.
    rewrite Hxy, Hyz. done.
Qed.

Lemma ventricles_stay_uniform_witness :
  let st :=
    CardiacCycle.animate [CardiacCycle.aorta]
      (CardiacCycle.animate [] CardiacCycle.start) in
  CardiacCycle.reachable st ∧ uniform (CardiacCycle.ventricles_scale st).
Proof.
  intros st.
  assert (CardiacCycle.reachable st) as Hst.
  { do 2 apply CardiacCycle.reach_frame. apply CardiacCycle.reach_init. }
  split; [exact Hst|].
  exact (ventricles_stay_uniform st Hst).
Defined.

Lemma ventricle_x_in_range (st : CardiacCycle.State) :
  CardiacCycle.reachable st →
  1 <= vx (CardiacCycle.ventricles_scale st) <= 1.05.
Proof.
  induction 1 as [em title desc opacity|value st _ IH|intersects st _ IH].
  - simpl. lra.
  - exact IH.
  - simpl.
    pose proof (contraction_range
      (sin ((CardiacCycle.time st + 0.01)
            * CardiacCycle.beatSpeed (CardiacCycle.bpm st) * 2))).
    lra.
Qed.

(** Lub and dub alternate: in a frame of a cardiac-cycle session in which
    the ventricles grow, the atria do not, since the ventricles are pulled
    up only while [beat > 0.5] and the atria only while [beat < 0]. *)
Theorem ventricles_and_atria_alternate
    (intersects : list CardiacCycle.Object3D) (st : CardiacCycle.State) :
  CardiacCycle.reachable st →
  vx (CardiacCycle.ventricles_scale st)
    < vx (CardiacCycle.ventricles_scale (CardiacCycle.animate intersects st)) →
  vx (CardiacCycle.atria_scale (CardiacCycle.animate intersects st))
    <= vx (CardiacCycle.atria_scale st).
Proof.
  intros Hst.
  destruct (atria_scale_reachable st Hst) as (Hax & _).
  pose proof (ventricle_x_in_range st Hst) as Hvx.
  simpl. unfold CardiacCycle.contraction.
  destruct (Rgt_dec _ 0.5) as [Hbeat|Hbeat]; [|lra].
  intros _. destruct (Rlt_dec _ 0) as [Hneg|_]; [lra|lra].
Qed.

Lemma ventricles_and_atria_alternate_witness :
  let st := CardiacCycle.onBpmInput 750 CardiacCycle.start in
  CardiacCycle.reachable st
  ∧ vx (CardiacCycle.ventricles_scale st)
      < vx (CardiacCycle.ventricles_scale (CardiacCycle.animate [] st))
  ∧ vx (CardiacCycle.atria_scale (CardiacCycle.animate [] st))
      <= vx (CardiacCycle.atria_scale st).
Proof.
  intros st.
  assert (CardiacCycle.reachable st) as Hst.
  { apply CardiacCycle.reach_input, CardiacCycle.reach_init. }
  assert (vx (CardiacCycle.ventricles_scale st)
          < vx (CardiacCycle.ventricles_scale (CardiacCycle.animate [] st)))
    as Hgrow.
  { simpl. unfold CardiacCycle.beatSpeed, CardiacCycle.contraction.
    replace ((0 + 0.01) * (750 / 60 * PI * 2) * 2) with (PI / 2) by lra.
    rewrite sin_PI2. destruct (Rgt_dec 1 0.5) as [_|H]; lra. }
  split; [exact Hst|]. split; [exact Hgrow|].
  exact (ventricles_and_atria_alternate [] st Hst Hgrow).
Defined.

(** With the slider at 0, the target stays 1 and [n] frames shrink the
    distance of the ventricle scale to 1 by the factor [0.8 ^ n]. *)
Theorem ventricles_relax_geometrically (es : list CardiacCycle.Event)
    (st : CardiacCycle.State) :
  CardiacCycle.bpm st = 0 → forallb CardiacCycle.isFrame es = true →
  let v0 := CardiacCycle.ventricles_scale st in
  let v := CardiacCycle.ventricles_scale (CardiacCycle.run es st) in
  vx v = 1 + (vx v0 - 1) * 0.8 ^ length es
  ∧ vy v = 1 + (vy v0 - 1) * 0.8 ^ length es
  ∧ vz v = 1 + (vz v0 - 1) * 0.8 ^ length es.
Proof.
  revert st. induction es as [|e es IH]; intros st Hbpm Hes.
  - simpl. split_and!; lra.
  - apply andb_prop in Hes as [He Hes].
    destruct e as [value|intersects]; [done|].
    rewrite cycle_run_cons.
    destruct (IH (CardiacCycle.step (CardiacCycle.Frame intersects) st))
      as (Hx & Hy & Hz); [done|done|].
    cbv zeta in *. rewrite Hx, Hy, Hz. clear Hx Hy Hz IH.
    simpl. rewrite Hbpm.
    unfold CardiacCycle.beatSpeed, CardiacCycle.contraction.
    replace ((CardiacCycle.time st + 0.01) * (0 / 60 * PI * 2) * 2)
      with 0 by lra.
    rewrite sin_0. destruct (Rgt_dec 0 0.5) as [H|_]; [lra|].
    split_and!; lra.
Qed.

Lemma ventricles_relax_geometrically_witness :
  let st :=
    CardiacCycle.onBpmInput 0
      (CardiacCycle.mkState 75 0 (mkVector3 1.05 1.05 1.05)
         (mkVector3 1.2 0.7 1) (CardiacCycle.hov CardiacCycle.start)) in
  let es := [CardiacCycle.Frame []; CardiacCycle.Frame [CardiacCycle.svc]] in
  let v := CardiacCycle.ventricles_scale (CardiacCycle.run es st) in
  CardiacCycle.bpm st = 0 ∧ forallb CardiacCycle.isFrame es = true
  ∧ vx v = 1 + (1.05 - 1) * 0.8 ^ 2
  ∧ vy v = 1 + (1.05 - 1) * 0.8 ^ 2
  ∧ vz v = 1 + (1.05 - 1) * 0.8 ^ 2.
Proof.
  intros st es v. split; [reflexivity|]. split; [reflexivity|].
  apply (ventricles_relax_geometrically es st); reflexivity.
Defined.

(** In the cardiac-cycle script [time] counts frames: after any run of
    slider inputs and frames it has moved by 0.01 per frame, whatever the
    slider said. *)
Theorem cycle_time_counts_frames (es : list CardiacCycle.Event)
    (st : CardiacCycle.State) :
  CardiacCycle.time (CardiacCycle.run es st)
  = CardiacCycle.time st
    + 0.01 * INR (length (filter (λ e, CardiacCycle.isFrame e = true) es)).
Proof.
  revert st. induction es as [|e es IH]; intros st.
  - simpl. lra.
  - rewrite cycle_run_cons, IH.
    destruct e as [value|intersects].
    + rewrite filter_cons_False by done. done.
    + rewrite filter_cons_True by done. rewrite length_cons, S_INR.
      simpl. lra.
Qed.

(** ** The cardiac-cycle highlight and label *)

Lemma setEmissive_lookup (o : CardiacCycle.Object3D) (c : Z)
    (em : gmap nat Z) (m : nat) :
  CardiacCycle.setEmissive o c em !! m
  = if decide (CardiacCycle.material_emissive o = true
               ∧ m = CardiacCycle.material o)
    then Some c else em !! m.
Proof.
  unfold CardiacCycle.setEmissive.
  destruct (CardiacCycle.material_emissive o);
    destruct (decide _) as [[? ->]|Hm]; try done.
  - by rewrite lookup_insert_eq.
  - rewrite lookup_insert_ne; [done|]. intros <-. by apply Hm.
Qed.

(** What a frame that hovers a new object leaves behind. *)
Lemma hover_new_object (object : CardiacCycle.Object3D)
    (rest : list CardiacCycle.Object3D) (h : CardiacCycle.Hover) :
  CardiacCycle.uid <$> CardiacCycle.hoveredObj h
    ≠ Some (CardiacCycle.uid object) →
  let h' := CardiacCycle.hover (object :: rest) h in
  CardiacCycle.hoveredObj h' = Some object
  ∧ CardiacCycle.emissive h'
    = CardiacCycle.setEmissive object 0x330000
        match CardiacCycle.hoveredObj h with
        | Some old => CardiacCycle.setEmissive old 0 (CardiacCycle.emissive h)
        | None => CardiacCycle.emissive h
        end.
Proof.
  intros Hnew. simpl. rewrite bool_decide_eq_true_2 by done.
  by destruct (truthy (CardiacCycle.name object)).
Qed.

(** One frame keeps: a material has a colour other than black only if it
    is the 0x330000 of the hovered object's own material. *)
Lemma hover_highlight_step (intersects : list CardiacCycle.Object3D)
    (h : CardiacCycle.Hover) :
  (∀ (m : nat) (c : Z), CardiacCycle.emissive h !! m = Some c →
     c = 0%Z
     ∨ c = 0x330000%Z
       ∧ ∃ o, CardiacCycle.hoveredObj h = Some o
           ∧ CardiacCycle.material o = m
           ∧ CardiacCycle.material_emissive o = true) →
  ∀ (m : nat) (c : Z),
    CardiacCycle.emissive (CardiacCycle.hover intersects h) !! m = Some c →
    c = 0%Z
    ∨ c = 0x330000%Z
      ∧ ∃ o, CardiacCycle.hoveredObj (CardiacCycle.hover intersects h) = Some o
          ∧ CardiacCycle.material o = m
          ∧ CardiacCycle.material_emissive o = true.
Proof.
  intros IH m c.
  assert (∀ old, CardiacCycle.hoveredObj h = Some old →
            CardiacCycle.setEmissive old 0 (CardiacCycle.emissive h) !! m
              = Some c → c = 0%Z) as Hreset.
  { intros old Hold. rewrite setEmissive_lookup.
    destruct (decide _) as [_|Hm]; [congruence|]. intros Hc.
    destruct (IH m c Hc) as [->|(_ & o & Ho & Hmat & Hem)]; [done|].
    naive_solver. }
  destruct intersects as [|object rest].
  - simpl. destruct (CardiacCycle.hoveredObj h) as [old|] eqn:Hold; simpl.
    + intros Hc. left. by apply (Hreset old).
    + rewrite Hold. intros Hc.
      destruct (IH m c Hc) as [->|(_ & o & Ho & _)]; [by left|done].
  - destruct (decide (CardiacCycle.uid <$> CardiacCycle.hoveredObj h
                      = Some (CardiacCycle.uid object))) as [Hsame|Hnew].
    + simpl. rewrite bool_decide_eq_false_2 by (by intros ?). apply IH.
    + destruct (hover_new_object object rest h Hnew) as [-> ->].
      rewrite setEmissive_lookup. destruct (decide _) as [Hm|Hm].
      * intros [= <-]. right. split; [done|]. exists object.
        by destruct Hm as [? ->].
      * destruct (CardiacCycle.hoveredObj h) as [old|] eqn:Hold.
        -- intros Hc. left. by apply (Hreset old).
        -- intros Hc.
           destruct (IH m c Hc) as [->|(_ & o & Ho & _)]; [by left|done].
Qed.

(** In a cardiac-cycle session that starts with no material lit, the
    only material ever lit (0x330000) is that of the hovered object; once
    nothing is hovered, every material is back to black. *)
Theorem highlight_follows_hover (es : list CardiacCycle.Event)
    (m : nat) (c : Z) :
  let h := CardiacCycle.hov (CardiacCycle.run es CardiacCycle.start) in
  CardiacCycle.emissive h !! m = Some c →
  c = 0%Z
  ∨ c = 0x330000%Z
    ∧ ∃ o, CardiacCycle.hoveredObj h = Some o
        ∧ CardiacCycle.material o = m
        ∧ CardiacCycle.material_emissive o = true.
Proof.
  revert m c. induction es as [|e es IH] using rev_ind; intros m c.
  - simpl. by rewrite lookup_empty.
  - rewrite cycle_run_snoc. destruct e as [value|intersects]; [apply IH|].
    simpl. apply hover_highlight_step. apply IH.
Qed.

Lemma highlight_follows_hover_witness :
  let es := [CardiacCycle.Frame [CardiacCycle.aorta];
             CardiacCycle.Frame [CardiacCycle.flowSystem]] in
  let h := CardiacCycle.hov (CardiacCycle.run es CardiacCycle.start) in
  CardiacCycle.emissive h !! CardiacCycle.arteryMat = Some 0%Z
  ∧ (0%Z = 0%Z
     ∨ 0%Z = 0x330000%Z
       ∧ ∃ o, CardiacCycle.hoveredObj h = Some o
           ∧ CardiacCycle.material o = CardiacCycle.arteryMat
           ∧ CardiacCycle.material_emissive o = true).
Proof.
  intros es h.
  assert (CardiacCycle.emissive h !! CardiacCycle.arteryMat = Some 0%Z)
    as Hc by reflexivity.
  split; [exact Hc|].
  exact (highlight_follows_hover es CardiacCycle.arteryMat 0%Z Hc).
Defined.

Lemma hover_label_step (intersects : list CardiacCycle.Object3D)
    (h : CardiacCycle.Hover) :
  (CardiacCycle.label_opacity h = 0 ∨ CardiacCycle.label_opacity h = 1)
  ∧ (CardiacCycle.hoveredObj h = None → CardiacCycle.label_opacity h = 0) →
  let h' := CardiacCycle.hover intersects h in
  (CardiacCycle.label_opacity h' = 0 ∨ CardiacCycle.label_opacity h' = 1)
  ∧ (CardiacCycle.hoveredObj h' = None → CardiacCycle.label_opacity h' = 0).
Proof.
  intros [Hrange Hidle]. unfold CardiacCycle.hover.
  destruct intersects as [|object rest].
  - destruct (CardiacCycle.hoveredObj h) as [old|] eqn:Hold; simpl.
    + split; [by left|done].
    + split; [done|]. intros _. by apply Hidle.
  - simpl. case_bool_decide; [|done].
    destruct (truthy (CardiacCycle.name object)); simpl;
      (split; [|done]); [by right|done].
Qed.

(** In a cardiac-cycle session that starts with its label hidden, the
    label's opacity is 0 or 1, and it is 0 whenever nothing is hovered. *)
Theorem label_hidden_when_idle (es : list CardiacCycle.Event) :
  let h := CardiacCycle.hov (CardiacCycle.run es CardiacCycle.start) in
  (CardiacCycle.label_opacity h = 0 ∨ CardiacCycle.label_opacity h = 1)
  ∧ (CardiacCycle.hoveredObj h = None → CardiacCycle.label_opacity h = 0).
Proof.
  induction es as [|e es IH] using rev_ind; [simpl; by split; [left|]|].
  rewrite cycle_run_snoc. destruct e as [value|intersects]; [apply IH|].
  apply (hover_label_step intersects), IH.
Qed.

Lemma label_hidden_when_idle_witness :
  let es := [CardiacCycle.Frame [CardiacCycle.ventricles];
             CardiacCycle.Frame []] in
  let h := CardiacCycle.hov (CardiacCycle.run es CardiacCycle.start) in
  CardiacCycle.hoveredObj h = None ∧ CardiacCycle.label_opacity h = 0.
Proof.
  intros es h.
  assert (CardiacCycle.hoveredObj h = None) as Hidle by reflexivity.
  split; [exact Hidle|].
  exact (proj2 (label_hidden_when_idle es) Hidle).
Defined.

(** Materials are shared: when a frame newly hovers an object whose
    material has an emissive colour, every object with the same material
    is lit with it; hovering the ventricles lights the atria. *)
Theorem highlight_spreads_over_material
    (object other : CardiacCycle.Object3D)
    (rest : list CardiacCycle.Object3D) (st : CardiacCycle.State) :
  CardiacCycle.material_emissive object = true →
  CardiacCycle.material other = CardiacCycle.material object →
  CardiacCycle.uid <$> CardiacCycle.hoveredObj (CardiacCycle.hov st)
    ≠ Some (CardiacCycle.uid object) →
  CardiacCycle.emissive
    (CardiacCycle.hov (CardiacCycle.animate (object :: rest) st))
    !! CardiacCycle.material other
  = Some 0x330000%Z.
Proof.
  intros Hem Hmat Hnew. simpl.
  rewrite bool_decide_eq_true_2 by done.
  destruct (truthy (CardiacCycle.name object)); simpl;
    rewrite setEmissive_lookup, decide_True; done.
Qed.

Lemma highlight_spreads_over_material_witness :
  CardiacCycle.material_emissive CardiacCycle.ventricles = true
  ∧ CardiacCycle.material CardiacCycle.atria
    = CardiacCycle.material CardiacCycle.ventricles
  ∧ CardiacCycle.uid
      <$> CardiacCycle.hoveredObj (CardiacCycle.hov CardiacCycle.start)
    ≠ Some (CardiacCycle.uid CardiacCycle.ventricles)
  ∧ CardiacCycle.emissive
      (CardiacCycle.hov
         (CardiacCycle.animate [CardiacCycle.ventricles] CardiacCycle.start))
      !! CardiacCycle.material CardiacCycle.atria
    = Some 0x330000%Z.
Proof.
  assert (CardiacCycle.uid
            <$> CardiacCycle.hoveredObj (CardiacCycle.hov CardiacCycle.start)
          ≠ Some (CardiacCycle.uid CardiacCycle.ventricles)) as Hnew
    by discriminate.
  split; [reflexivity|]. split; [reflexivity|]. split; [exact Hnew|].
  exact (highlight_spreads_over_material CardiacCycle.ventricles
           CardiacCycle.atria [] CardiacCycle.start eq_refl eq_refl Hnew).
Defined.

(** ** Pointer coordinates *)

Lemma ratio_in_unit (a w : R) : 0 < w → 0 <= a <= w → 0 <= a / w <= 1.
Proof.
  intros Hw Ha. unfold Rdiv.
  pose proof (Rinv_0_lt_compat w Hw) as Hk.
  assert (w * / w = 1) as Hone by (field; lra).
  split; nra.
Qed.



(** The pointer position can be read back from what the heart script
    stores, as long as the container has a size. *)
Theorem mouse_round_trip (width height : R) (event : MouseEvent)
    (mouse : Vector2) :
  width ≠ 0 → height ≠ 0 →
  let m := Heart.onMouseMove width height event mouse in
  clientX event = (px m + 1) / 2 * width
  ∧ clientY event = (1 - py m) / 2 * height.
Proof. intros Hw Hh. simpl. split; field; done. Qed.

Lemma mouse_round_trip_witness :
  let event := mkMouseEvent 200 450 in
  let m := Heart.onMouseMove 800 600 event (mkVector2 0 0) in
  800 ≠ 0 ∧ 600 ≠ 0
  ∧ clientX event = (px m + 1) / 2 * 800
  ∧ clientY event = (1 - py m) / 2 * 600.
Proof.
  intros event m.
  assert (800 ≠ 0) as Hw by lra. assert (600 ≠ 0) as Hh by lra.
  split; [exact Hw|]. split; [exact Hh|].
  exact (mouse_round_trip 800 600 event (mkVector2 0 0) Hw Hh).
Defined.

(** The cross-section script measures the pointer from the container's
    corner: moving the container and the pointer together changes nothing,
    with the container at the page's corner it computes what the heart
    script does, and a pointer inside the container lands in
    [[-1, 1] x [-1, 1]]. *)
Theorem cross_section_mouse_relative (left top width height dx dy : R)
    (event : MouseEvent) (mouse : Vector2) :
  0 < width → 0 < height →
  left <= clientX event <= left + width →
  top <= clientY event <= top + height →
  let m := CrossSection.onMouseMove left top width height event mouse in
  CrossSection.onMouseMove (left + dx) (top + dy) width height
    (mkMouseEvent (clientX event + dx) (clientY event + dy)) mouse = m
  ∧ CrossSection.onMouseMove 0 0 width height event mouse
    = Heart.onMouseMove width height event mouse
  ∧ -1 <= px m <= 1 ∧ -1 <= py m <= 1.
Proof.
  intros Hw Hh Hx Hy. simpl.
  assert (0 <= clientX event - left <= width) as Hx' by lra.
  assert (0 <= clientY event - top <= height) as Hy' by lra.
  pose proof (ratio_in_unit _ _ Hw Hx').
  pose proof (ratio_in_unit _ _ Hh Hy').
  split_and!; try lra.
  - unfold CrossSection.onMouseMove; simpl. f_equal; field; lra.
  - unfold CrossSection.onMouseMove, Heart.onMouseMove.
    f_equal; field; lra.
Qed.

Lemma cross_section_mouse_relative_witness :
  let event := mkMouseEvent 500 350 in
  let m := CrossSection.onMouseMove 100 50 800 600 event (mkVector2 0 0) in
  0 < 800 ∧ 0 < 600
  ∧ 100 <= clientX event <= 100 + 800 ∧ 50 <= clientY event <= 50 + 600
  ∧ CrossSection.onMouseMove (100 + 20) (50 + 30) 800 600
      (mkMouseEvent (clientX event + 20) (clientY event + 30))
      (mkVector2 0 0) = m
  ∧ CrossSection.onMouseMove 0 0 800 600 event (mkVector2 0 0)
    = Heart.onMouseMove 800 600 event (mkVector2 0 0)
  ∧ -1 <= px m <= 1 ∧ -1 <= py m <= 1.
Proof.
  intros event m.
  assert (0 < 800) as Hw by lra. assert (0 < 600) as Hh by lra.
  assert (100 <= clientX event <= 100 + 800) as Hx by (simpl; lra).
  assert (50 <= clientY event <= 50 + 600) as Hy by (simpl; lra).
  split; [exact Hw|]. split; [exact Hh|]. split; [exact Hx|].
  split; [exact Hy|].
  exact (cross_section_mouse_relative 100 50 800 600 20 30 event
           (mkVector2 0 0) Hw Hh Hx Hy).
Defined.

(** ** Switches *)

(** After any positive number of clicks on the wireframe button both
    materials of the heart script show what [isWireframe] says, whatever
    they showed before, and [isWireframe] has flipped once per click. *)
Theorem wireframe_after_clicks (n : nat) (w : Heart.Wire) :
  let w' := Nat.iter (S n) Heart.onToggleWireframe w in
  Heart.heartMaterial_wireframe w' = Heart.isWireframe w'
  ∧ Heart.aortaMat_wireframe w' = Heart.isWireframe w'
  ∧ Heart.isWireframe w' = xorb (Heart.isWireframe w) (Nat.even n).
Proof.
  induction n as [|n IH].
  - simpl. split_and!; try done; by destruct (Heart.isWireframe w).
  - cbv zeta in *. destruct IH as (_ & _ & IH).
    rewrite Nat.iter_succ.
    remember (Nat.iter (S n) Heart.onToggleWireframe w) as w1 eqn:Hw1.
    clear Hw1. unfold Heart.onToggleWireframe.
    cbn [Heart.isWireframe Heart.heartMaterial_wireframe
         Heart.aortaMat_wireframe].
    split_and!; try done.
    rewrite IH, Nat.even_succ, <- Nat.negb_even.
    by destruct (Heart.isWireframe w), (Nat.even n).
Qed.

(** After any positive number of clicks on the cut button of the
    cardiac-cycle script, the material of the ventricles is see-through
    exactly when [isCut] holds, and so is the material of the atria, which
    is the same material; no other material and no other switch changes. *)
Theorem cut_after_clicks (n : nat) (c : CardiacCycle.Controls) :
  let c' := Nat.iter (S n) CardiacCycle.onCutClick c in
  let look :=
    CardiacCycle.mkLook (if CardiacCycle.isCut c' then 0.4 else 1)
      (CardiacCycle.isCut c')
      (if CardiacCycle.isCut c' then CardiacCycle.DoubleSide
       else CardiacCycle.FrontSide) in
  CardiacCycle.isCut c' = xorb (CardiacCycle.isCut c) (Nat.even n)
  ∧ CardiacCycle.looks c'
      !! CardiacCycle.material CardiacCycle.ventricles = Some look
  ∧ CardiacCycle.looks c'
      !! CardiacCycle.material CardiacCycle.atria = Some look
  ∧ (∀ m : nat, m ≠ CardiacCycle.tissueMaterial →
       CardiacCycle.looks c' !! m = CardiacCycle.looks c !! m)
  ∧ CardiacCycle.isFlowing c' = CardiacCycle.isFlowing c
  ∧ CardiacCycle.showLabels c' = CardiacCycle.showLabels c
  ∧ CardiacCycle.flowSystem_visible c' = CardiacCycle.flowSystem_visible c.
Proof.
  induction n as [|n IH].
  - simpl. split_and!; try done.
    + rewrite lookup_insert_eq. do 2 f_equal.
      destruct (CardiacCycle.isCut c); simpl; lra.
    + rewrite lookup_insert_eq. do 2 f_equal.
      destruct (CardiacCycle.isCut c); simpl; lra.
    + intros m Hm. by rewrite lookup_insert_ne.
  - cbv zeta in *. rewrite Nat.iter_succ.
    destruct IH as (IHcut & _ & _ & IHrest & IHflow & IHlab & IHvis).
    remember (Nat.iter (S n) CardiacCycle.onCutClick c) as c1 eqn:Hc1.
    clear Hc1. unfold CardiacCycle.onCutClick.
    cbn [CardiacCycle.isCut CardiacCycle.looks CardiacCycle.isFlowing
         CardiacCycle.showLabels CardiacCycle.flowSystem_visible].
    split_and!; try done.
    + rewrite IHcut, Nat.even_succ, <- Nat.negb_even.
      by destruct (CardiacCycle.isCut c), (Nat.even n).
    + rewrite lookup_insert_eq. do 2 f_equal.
      destruct (CardiacCycle.isCut c1); simpl; lra.
    + rewrite lookup_insert_eq. do 2 f_equal.
      destruct (CardiacCycle.isCut c1); simpl; lra.
    + intros m Hm. rewrite lookup_insert_ne by done. by apply IHrest.
Qed.

Lemma cut_after_clicks_witness :
  let c :=
    CardiacCycle.mkControls true false false true
      {[ CardiacCycle.arteryMat :=
           CardiacCycle.mkLook 1 false CardiacCycle.FrontSide ]} in
  let c' := Nat.iter 2 CardiacCycle.onCutClick c in
  CardiacCycle.arteryMat ≠ CardiacCycle.tissueMaterial
  ∧ CardiacCycle.isCut c' = false
  ∧ CardiacCycle.looks c' !! CardiacCycle.material CardiacCycle.atria
    = Some (CardiacCycle.mkLook 1 false CardiacCycle.FrontSide)
  ∧ CardiacCycle.looks c' !! CardiacCycle.arteryMat
    = CardiacCycle.looks c !! CardiacCycle.arteryMat.
Proof.
  intros c c'.
  assert (CardiacCycle.arteryMat ≠ CardiacCycle.tissueMaterial) as Hne
    by discriminate.
  destruct (cut_after_clicks 1 c) as (Hcut & _ & Hatria & Hrest & _).
  split; [exact Hne|]. split; [exact Hcut|].
  split; [|exact (Hrest CardiacCycle.arteryMat Hne)].
  etransitivity; [exact Hatria|]. reflexivity.
Defined.

(** The three switches of the cardiac-cycle script do not interfere:
    clicking two of them in either order gives the same result, and the
    particle system is visible exactly when [isFlowing] holds after a
    click on the flow button. *)
Lemma switches_independent (c : CardiacCycle.Controls) :
  CardiacCycle.onCutClick (CardiacCycle.onFlowClick c)
  = CardiacCycle.onFlowClick (CardiacCycle.onCutClick c)
  ∧ CardiacCycle.onCutClick (CardiacCycle.onLabelsClick c)
    = CardiacCycle.onLabelsClick (CardiacCycle.onCutClick c)
  ∧ CardiacCycle.onFlowClick (CardiacCycle.onLabelsClick c)
    = CardiacCycle.onLabelsClick (CardiacCycle.onFlowClick c)
  ∧ CardiacCycle.flowSystem_visible (CardiacCycle.onFlowClick c)
    = CardiacCycle.isFlowing (CardiacCycle.onFlowClick c).
Proof. by split_and!. Qed.

(** ** The arch curve *)

(** For [t] between 0 and 1, [CustomSinCurve.getPoint] runs along half an
    ellipse with half-axes 1.5 and 2.5 above the line [y = 1], and leans
    back by a fifth of its height: it starts at [(1.5, 1, 0)] and ends at
    [(-1.5, 1, 0)]. *)
Theorem arch_curve_shape (t : R) :
  0 <= t <= 1 →
  let p := CardiacCycle.CustomSinCurve_getPoint t in
  (vx p / 1.5) ^ 2 + ((vy p - 1) / 2.5) ^ 2 = 1
  ∧ 1 <= vy p <= 3.5
  ∧ vz p = - (vy p - 1) / 5
  ∧ CardiacCycle.CustomSinCurve_getPoint 0 = mkVector3 1.5 1 0
  ∧ CardiacCycle.CustomSinCurve_getPoint 1 = mkVector3 (-1.5) 1 0.
Proof.
  intros Ht. simpl.
  pose proof PI_RGT_0 as Hpi.
  assert (0 <= sin (t * PI)) as Hsin by (apply sin_ge_0; nra).
  pose proof (SIN_bound (t * PI)) as Hbound.
  pose proof (sin2_cos2 (t * PI)) as Hcircle. unfold Rsqr in Hcircle.
  split_and!.
  - replace (cos (t * PI) * 1.5 / 1.5) with (cos (t * PI)) by lra.
    replace ((sin (t * PI) * 2.5 + 1 - 1) / 2.5) with (sin (t * PI)) by lra.
    simpl. lra.
  - lra.
  - lra.
  - lra.
  - unfold CardiacCycle.CustomSinCurve_getPoint.
    rewrite Rmult_0_l, sin_0, cos_0. f_equal; lra.
  - unfold CardiacCycle.CustomSinCurve_getPoint.
    rewrite Rmult_1_l, sin_PI, cos_PI. f_equal; lra.
Qed.

Lemma arch_curve_shape_witness :
  let p := CardiacCycle.CustomSinCurve_getPoint (1 / 2) in
  0 <= 1 / 2 <= 1
  ∧ (vx p / 1.5) ^ 2 + ((vy p - 1) / 2.5) ^ 2 = 1
  ∧ 1 <= vy p <= 3.5
  ∧ vz p = - (vy p - 1) / 5.
Proof.
  intros p. assert (0 <= 1 / 2 <= 1) as Ht by lra.
  destruct (arch_curve_shape (1 / 2) Ht) as (He & Hy & Hz & _).
  split; [exact Ht|]. split; [exact He|]. split; [exact Hy|exact Hz].
Defined.

(** ** The blood-flow particles *)

Lemma rem1_range (a : R) : 0 <= a → 0 <= CardiacCycle.rem1 a < 1.
Proof.
  intros Ha. unfold CardiacCycle.rem1.
  destruct (Rle_dec 0 a) as [_|Hneg]; [|done].
  destruct (base_fp a). lra.
Qed.

Lemma initFlow_spec (random : nat → R) (rounds k : nat)
    (flowSpeed : list R) (flowPath : list nat) :
  (∀ k : nat, 0 <= random k < 1) →
  Forall (λ s, 0.02 <= s < 0.04) flowSpeed →
  Forall (λ path, path = 0%nat ∨ path = 1%nat) flowPath →
  length flowPath = length flowSpeed →
  let '(flowSpeed', flowPath') :=
    CardiacCycle.initFlow random rounds k flowSpeed flowPath in
  Forall (λ s, 0.02 <= s < 0.04) flowSpeed'
  ∧ Forall (λ path, path = 0%nat ∨ path = 1%nat) flowPath'
  ∧ length flowSpeed' = (length flowSpeed + rounds)%nat
  ∧ length flowPath' = length flowSpeed'.
Proof.
  intros Hrandom. revert k flowSpeed flowPath.
  induction rounds as [|rounds IH]; intros k flowSpeed flowPath Hs Hp Hlen.
  - simpl. split_and!; try done; lia.
  - simpl.
    specialize (IH (S (S k)) (flowSpeed ++ [0.02 + random (S k) * 0.02])
      (flowPath ++ [if Rgt_dec (random k) 0.5 then 0%nat else 1%nat])).
    destruct (CardiacCycle.initFlow random rounds (S (S k)) _ _)
      as [flowSpeed' flowPath'].
    destruct IH as (Hs' & Hp' & Hlen1 & Hlen2).
    + apply Forall_app. split; [done|]. apply Forall_singleton.
      pose proof (Hrandom (S k)). lra.
    + apply Forall_app. split; [done|]. apply Forall_singleton.
      destruct (Rgt_dec (random k) 0.5); [by left|by right].
    + rewrite !length_app. simpl. lia.
    + split_and!; try done. rewrite Hlen1, length_app. simpl. lia.
Qed.

(** Whatever [Math.random] returns in [[0, 1)], the start-up loop gives
    each of the 200 particles a path that is 0 or 1 and a speed in
    [[0.02, 0.04)]. *)
Theorem initFlow_ranges (random : nat → R) :
  (∀ k : nat, 0 <= random k < 1) →
  let '(flowSpeed, flowPath) :=
    CardiacCycle.initFlow random CardiacCycle.particleCount 0 [] [] in
  length flowSpeed = 200%nat ∧ length flowPath = 200%nat
  ∧ (∀ (i : nat) (s : R), flowSpeed !! i = Some s → 0.02 <= s < 0.04)
  ∧ (∀ (i path : nat), flowPath !! i = Some path →
       path = 0%nat ∨ path = 1%nat).
Proof.
  intros Hrandom.
  pose proof (initFlow_spec random CardiacCycle.particleCount 0 [] []
                Hrandom (Forall_nil_2 _) (Forall_nil_2 _) eq_refl) as Hspec.
  destruct (CardiacCycle.initFlow random CardiacCycle.particleCount 0 [] [])
    as [flowSpeed flowPath].
  destruct Hspec as (Hs & Hp & Hlen1 & Hlen2).
  split_and!.
  - rewrite Hlen1. reflexivity.
  - rewrite Hlen2, Hlen1. reflexivity.
  - intros i s Hi. by apply (Forall_lookup_1 _ _ _ _ Hs Hi).
  - intros i path Hi. by apply (Forall_lookup_1 _ _ _ _ Hp Hi).
Qed.

Lemma initFlow_ranges_witness :
  (∀ k : nat, 0 <= (λ _ : nat, 1 / 4) k < 1)
  ∧ let '(flowSpeed, flowPath) :=
      CardiacCycle.initFlow (λ _, 1 / 4) CardiacCycle.particleCount 0 [] [] in
    length flowSpeed = 200%nat ∧ length flowPath = 200%nat
    ∧ (∀ (i : nat) (s : R), flowSpeed !! i = Some s → 0.02 <= s < 0.04)
    ∧ (∀ (i path : nat), flowPath !! i = Some path →
         path = 0%nat ∨ path = 1%nat).
Proof.
  assert (∀ k : nat, 0 <= (λ _ : nat, 1 / 4) k < 1) as Hrandom
    by (intros k; simpl; lra).
  split; [exact Hrandom|].
  exact (initFlow_ranges (λ _, 1 / 4) Hrandom).
Defined.

Section Flow.

Variable aortaPath_getPoint : R → Vector3.
Variable random : nat → R.
Variables (flowSpeed : list R) (flowPath : list nat).
Variables bpm time : R.

Hypothesis Hrandom : ∀ k : nat, 0 <= random k < 1.
Hypothesis Hspeed : Forall (λ s, 0 <= s) flowSpeed.
Hypothesis Hbpm : 0 <= bpm.
Hypothesis Htime : 0 <= time.

Local Abbreviation step :=
  (CardiacCycle.flowStep aortaPath_getPoint random flowSpeed flowPath
     bpm time).

(** One round writes the three slots of particle [i] and no other, and
    puts a vena cava particle into the box. *)
Lemma flowStep_spec (i : nat) (positions : list R) :
  (i < length flowSpeed)%nat → (i < length flowPath)%nat →
  (i * 3 + 2 < length positions)%nat →
  ∃ positions', step i positions = Some positions'
    ∧ length positions' = length positions
    ∧ (∀ j : nat, j ≠ i →
         positions' !! (j * 3)%nat = positions !! (j * 3)%nat
         ∧ positions' !! (j * 3 + 1)%nat = positions !! (j * 3 + 1)%nat
         ∧ positions' !! (j * 3 + 2)%nat = positions !! (j * 3 + 2)%nat)
    ∧ (flowPath !! i = Some 1%nat →
         CardiacCycle.inVenaCavaBox positions' i).
Proof.
  intros Hi_s Hi_p Hlen.
  destruct (lookup_lt_is_Some_2 flowSpeed i Hi_s) as [s Hs].
  destruct (lookup_lt_is_Some_2 flowPath i Hi_p) as [path Hp].
  unfold CardiacCycle.flowStep. rewrite Hs, Hp. simpl.
  eexists. split; [reflexivity|]. split_and!.
  - by rewrite !length_insert.
  - intros j Hj. rewrite !list_lookup_insert_ne by lia. done.
  - intros [= ->]. rewrite decide_False by done. simpl.
    assert (0 <= s) as Hs0 by (by apply (Forall_lookup_1 _ _ _ _ Hspeed Hs)).
    pose proof (pos_INR i) as Hi0.
    assert (0 <= s * (bpm / 60)) as Hsp
      by (apply Rmult_le_pos; [done|lra]).
    assert (0 <= time * (s * (bpm / 60)) + INR i * 0.1) as Harg.
    { pose proof (Rmult_le_pos _ _ Htime Hsp). lra. }
    pose proof (rem1_range _ Harg) as Ht.
    pose proof (Hrandom (i * 3)%nat).
    pose proof (Hrandom (i * 3 + 1)%nat).
    pose proof (Hrandom (i * 3 + 2)%nat).
    eexists _, _, _. split_and!.
    + rewrite !list_lookup_insert_ne by lia.
      by rewrite list_lookup_insert_eq by lia.
    + rewrite list_lookup_insert_ne by lia.
      by rewrite list_lookup_insert_eq by (rewrite !length_insert; lia).
    + by rewrite list_lookup_insert_eq by (rewrite !length_insert; lia).
    + lra.
    + lra.
    + lra.
    + lra.
    + lra.
    + lra.
Qed.

Lemma flowLoop_spec (rounds i : nat) (positions : list R) :
  (i + rounds <= length flowSpeed)%nat →
  (i + rounds <= length flowPath)%nat →
  ((i + rounds) * 3 <= length positions)%nat →
  (∀ j : nat, (j < i)%nat → flowPath !! j = Some 1%nat →
     CardiacCycle.inVenaCavaBox positions j) →
  ∃ positions', CardiacCycle.flowLoop step rounds i positions = Some positions'
    ∧ length positions' = length positions
    ∧ ∀ j : nat, (j < i + rounds)%nat → flowPath !! j = Some 1%nat →
        CardiacCycle.inVenaCavaBox positions' j.
Proof.
  revert i positions.
  induction rounds as [|rounds IH]; intros i positions Hs Hp Hlen Hinv.
  - exists positions. split_and!; try done.
    intros j Hj. apply Hinv. lia.
  - simpl.
    destruct (flowStep_spec i positions) as (p1 & -> & Hlen1 & Hrest & Hbox);
      [lia..|]. simpl.
    destruct (IH (S i) p1) as (p' & Hrun & Hlen' & Hinv'); [lia..| |].
    + intros j Hj Hpath. destruct (decide (j = i)) as [->|Hne].
      * by apply Hbox.
      * destruct (Hinv j) as (x & y & z & Hx & Hy & Hz & Hrange);
          [lia|done|].
        destruct (Hrest j Hne) as (Hx' & Hy' & Hz').
        exists x, y, z. rewrite Hx', Hy', Hz'. done.
    + exists p'. split_and!; [done|congruence|].
      intros j Hj. apply Hinv'. lia.
Qed.

End Flow.

(** While the particles flow, with a slider and a clock that are not
    negative, a frame of the cardiac-cycle script rewrites the particle
    buffer in full length and puts every particle of the vena cava path
    into the box [[1.4, 1.6] x [-2.1, 3.1] x [-0.6, -0.4]], whatever
    [Math.random] returned at start-up and in the frame. *)
Theorem flow_stays_near_vena_cava (aortaPath_getPoint : R → Vector3)
    (random0 random : nat → R) (bpm time : R) (positions : list R) :
  (∀ k : nat, 0 <= random0 k < 1) → (∀ k : nat, 0 <= random k < 1) →
  0 <= bpm → 0 <= time →
  length positions = (CardiacCycle.particleCount * 3)%nat →
  let '(flowSpeed, flowPath) :=
    CardiacCycle.initFlow random0 CardiacCycle.particleCount 0 [] [] in
  ∃ positions',
    CardiacCycle.updateFlow true aortaPath_getPoint random flowSpeed flowPath
      bpm time positions = Some positions'
    ∧ length positions' = length positions
    ∧ ∀ i : nat, flowPath !! i = Some 1%nat →
        CardiacCycle.inVenaCavaBox positions' i.
Proof.
  intros Hrandom0 Hrandom Hbpm Htime Hlen.
  pose proof (initFlow_spec random0 CardiacCycle.particleCount 0 [] []
                Hrandom0 (Forall_nil_2 _) (Forall_nil_2 _) eq_refl) as Hspec.
  destruct (CardiacCycle.initFlow random0 CardiacCycle.particleCount 0 [] [])
    as [flowSpeed flowPath].
  destruct Hspec as (Hs & Hp & Hlen1 & Hlen2). simpl in Hlen1.
  assert (Forall (λ s, 0 <= s) flowSpeed) as Hs0.
  { eapply Forall_impl; [exact Hs|]. simpl. intros; lra. }
  destruct (flowLoop_spec aortaPath_getPoint random flowSpeed flowPath
              bpm time Hrandom Hs0 Hbpm Htime
              CardiacCycle.particleCount 0 positions)
    as (p' & Hrun & Hlen' & Hinv).
  - rewrite Hlen1. done.
  - rewrite Hlen2, Hlen1. done.
  - rewrite Hlen. done.
  - intros j Hj. lia.
  - exists p'. split_and!; try done.
    intros i Hi. apply Hinv; [|done].
    apply lookup_lt_Some in Hi. rewrite Hlen2, Hlen1 in Hi. exact Hi.
Qed.

Lemma flow_stays_near_vena_cava_witness :
  (∀ k : nat, 0 <= (λ _ : nat, 1 / 4) k < 1)
  ∧ (∀ k : nat, 0 <= (λ _ : nat, 1 / 2) k < 1)
  ∧ 0 <= 75 ∧ 0 <= 0.01
  ∧ length (repeat 0 600) = (CardiacCycle.particleCount * 3)%nat
  ∧ let '(flowSpeed, flowPath) :=
      CardiacCycle.initFlow (λ _, 1 / 4) CardiacCycle.particleCount 0 [] [] in
    ∃ positions',
      CardiacCycle.updateFlow true (λ _, mkVector3 0 0 0) (λ _, 1 / 2)
        flowSpeed flowPath 75 0.01 (repeat 0 600) = Some positions'
      ∧ length positions' = length (repeat 0 600)
      ∧ ∀ i : nat, flowPath !! i = Some 1%nat →
          CardiacCycle.inVenaCavaBox positions' i.
Proof.
  assert (∀ k : nat, 0 <= (λ _ : nat, 1 / 4) k < 1) as Hrandom0
    by (intros k; simpl; lra).
  assert (∀ k : nat, 0 <= (λ _ : nat, 1 / 2) k < 1) as Hrandom
    by (intros k; simpl; lra).
  assert (0 <= 75) as Hbpm by lra.
  assert (0 <= 0.01) as Htime by lra.
  split; [exact Hrandom0|]. split; [exact Hrandom|].
  split; [exact Hbpm|]. split; [exact Htime|]. split; [reflexivity|].
  exact (flow_stays_near_vena_cava (λ _, mkVector3 0 0 0) (λ _, 1 / 4)
           (λ _, 1 / 2) 75 0.01 (repeat 0 600)
           Hrandom0 Hrandom Hbpm Htime eq_refl).
Defined.
